(** * ragstral indexer: chunk identifiers, batch packing and the batch runner

    A shallow embedding of the parts of the indexing pipeline that carry
    its algorithmic content:

    - [services/code_preprocessor.py]: [CodePreprocessor.run],
      [_flatten_repository], [_should_skip_file] and [_chunk_corpus],
    - [services/embedding_service.py]: [EmbeddingService.run],
      [_format_doc] and [_get_embeddings_batch],
    - [services/pinecone_indexer.py]: [PineconeIndexer.index_repository],
    - [services/github_fetcher.py]: [download_repo],
    - [pipeline.py]: [extract_repo_name] and [run_pipeline].

    Python values are modelled as the code has them: [str] as [string],
    [int] as [Z], [float] as the kernel's binary64 [float], [dict] as an
    insertion-ordered association list, the directory tree as a finite
    set of paths.  The tokenizer, the text splitter, the embedding
    provider and the network are external to the repository and enter as
    parameters. *)

From Stdlib Require Import ZArith Bool List Ascii String Floats Lia.
From Stdlib Require Import Numbers.DecimalString DecimalNat.
From stdpp Require Import base list strings gmap.
Import ListNotations.

Local Open Scope string_scope.
Local Open Scope Z_scope.
Local Open Scope list_scope.

(** ** Python built-ins used by the sources *)

Module Py.

(** *** Strings *)

(** [str.isspace] on one character, for code points below 256: the
    characters TAB..CR, FS..US, SPACE, NEL and NBSP. *)
Definition isspace (c : ascii) : bool :=
  let n := N_of_ascii c in
  ((9 <=? n) && (n <=? 13) || (28 <=? n) && (n <=? 32)
   || (n =? 133) || (n =? 160))%N.

(** [s.lstrip()], [s.rstrip()] and [s.strip()]. *)
Fixpoint lstrip (s : string) : string :=
  match s with
  | EmptyString => EmptyString
  | String c s' => if isspace c then lstrip s' else s
  end.

Fixpoint rstrip (s : string) : string :=
  match s with
  | EmptyString => EmptyString
  | String c s' =>
      match rstrip s' with
      | EmptyString => if isspace c then EmptyString else String c EmptyString
      | r => String c r
      end
  end.

Definition strip (s : string) : string := rstrip (lstrip s).

(** [s.split()] without a separator: the maximal runs of characters that
    are not whitespace.  [cur] is the word being read, if any. *)
Fixpoint split_ws_from (cur : option string) (s : string) : list string :=
  match s with
  | EmptyString => match cur with None => [] | Some w => [w] end
  | String c s' =>
      if isspace c then
        match cur with
        | None => split_ws_from None s'
        | Some w => w :: split_ws_from None s'
        end
      else
        split_ws_from
          (Some (match cur with None => "" | Some w => w end
                 ++ String c EmptyString)%string) s'
  end.

Definition split_ws (s : string) : list string := split_ws_from None s.

(** [sep in s]. *)
Fixpoint contains (sep s : string) : bool :=
  String.prefix sep s ||
  match s with
  | EmptyString => false
  | String _ s' => contains sep s'
  end.

(** [s.split(sep)] for a non-empty [sep]: scan left to right, cut at each
    occurrence of [sep] and resume after it.  [skip] counts the
    characters of a matched separator still to be passed over, [cur] is
    the piece being read. *)
Fixpoint split_from (sep : string) (skip : nat) (cur s : string)
  : list string :=
  match s with
  | EmptyString => [cur]
  | String c s' =>
      match skip with
      | S k => split_from sep k cur s'
      | O =>
          if String.prefix sep s
          then cur :: split_from sep (String.length sep - 1) "" s'
          else split_from sep 0 (cur ++ String c EmptyString)%string s'
      end
  end.

Definition split (s sep : string) : list string := split_from sep 0 "" s.

(** [l[0]] on the result of [split], which is never empty. *)
Definition item0 (l : list string) : string := List.hd "" l.

(** [str(i)] / [f"{i}"] for a non-negative integer. *)
Definition str_of_nat (i : nat) : string :=
  NilZero.string_of_uint (Nat.to_uint i).

(** [s.endswith(suffix)]: some tail of [s] is [suffix]. *)
Fixpoint endswith (s suffix : string) : bool :=
  String.eqb s suffix ||
  match s with
  | EmptyString => false
  | String _ s' => endswith s' suffix
  end.

(** *** Numbers

    The packer adds token counts that are [int] when they come from the
    tokenizer and [float] when they come from the word-count estimate,
    and compares the sum with an [int] limit. *)

Inductive num : Type :=
| Int (z : Z)
| Float (f : float).

(** [float(z)]: the nearest binary64 value, ties to even, for
    [|z| < 2^63]; every length that occurs is in that range. *)
Definition float_of_Z (z : Z) : float :=
  if 0 <=? z then PrimFloat.of_uint63 (Uint63.of_Z z)
  else (- PrimFloat.of_uint63 (Uint63.of_Z (- z)))%float.

Definition to_float (a : num) : float :=
  match a with
  | Int z => float_of_Z z
  | Float f => f
  end.

(** [a + b] and [a * b]: exact on two [int]s, binary64 as soon as one
    operand is a [float]. *)
Definition add (a b : num) : num :=
  match a, b with
  | Int x, Int y => Int (x + y)
  | _, _ => Float (to_float a + to_float b)
  end.

Definition mul (a b : num) : num :=
  match a, b with
  | Int x, Int y => Int (x * y)
  | _, _ => Float (to_float a * to_float b)
  end.

(** Comparison of a [float] with an [int] is exact in Python (the [int]
    is not rounded to a [float] first): a finite float is [m * 2^e]. *)
Definition float_compare_Z (f : float) (z : Z) : option comparison :=
  match Prim2SF f with
  | S754_nan => None
  | S754_infinity s => Some (if s then Lt else Gt)
  | S754_zero _ => Some (0 ?= z)%Z
  | S754_finite s m e =>
      let n := if s then Z.neg m else Z.pos m in
      Some (if 0 <=? e then n * 2 ^ e ?= z else n ?= z * 2 ^ (- e))%Z
  end.

(** [a > b] and [a <= b]; both are false when a [float] is not a number. *)
Definition gt (a b : num) : bool :=
  match a, b with
  | Int x, Int y => x >? y
  | Float f, Int y =>
      match float_compare_Z f y with Some Gt => true | _ => false end
  | Int x, Float g =>
      match float_compare_Z g x with Some Lt => true | _ => false end
  | Float f, Float g => PrimFloat.ltb g f
  end.

Definition le (a b : num) : bool :=
  match a, b with
  | Int x, Int y => x <=? y
  | Float f, Int y =>
      match float_compare_Z f y with
      | Some Lt | Some Eq => true
      | _ => false
      end
  | Int x, Float g =>
      match float_compare_Z g x with
      | Some Gt | Some Eq => true
      | _ => false
      end
  | Float f, Float g => PrimFloat.leb f g
  end.

(** *** Lists *)

(** [l[:k]]: the first [k] items, or all but the last [-k] when [k] is
    negative. *)
Definition slice_to {A} (l : list A) (k : Z) : list A :=
  if 0 <=? k then firstn (Z.to_nat k) l
  else firstn (List.length l - Z.to_nat (- k)) l.

(** *** Dictionaries

    A [dict] keeps its keys in insertion order; assigning to a key that
    is present replaces the value in place. *)
Definition dict (V : Type) : Type := list (string * V).

Fixpoint get {V} (d : dict V) (k : string) : option V :=
  match d with
  | [] => None
  | (k', v) :: d' => if String.eqb k' k then Some v else get d' k
  end.

Fixpoint set {V} (d : dict V) (k : string) (v : V) : dict V :=
  match d with
  | [] => [(k, v)]
  | (k', v') :: d' =>
      if String.eqb k' k then (k', v) :: d' else (k', v') :: set d' k v
  end.

(** [d.get(k, default)]. *)
Definition get_default {V} (d : dict V) (k : string) (default : V) : V :=
  match get d k with Some v => v | None => default end.

Definition keys {V} (d : dict V) : list string := List.map fst d.

End Py.

(** ** services/code_preprocessor.py *)

Module CodePreprocessor.

(** The marker between a document identifier and a chunk index. *)
Definition chunk_marker : string := "_<chunk>_".

(** A document or chunk record: [{"title": ..., "text": ...}]. *)
Definition doc : Type := Py.dict string.

(** [f"{orig_id}_<chunk>_{i}"] (line 247). *)
Definition chunk_id (orig_id : string) (i : nat) : string :=
  (orig_id ++ chunk_marker ++ Py.str_of_nat i)%string.

Section Chunker.

(** Lines 219-241: the langchain [RecursiveCharacterTextSplitter] built
    for the language of [title] (or the generic one), with the
    service's [chunk_size] and [chunk_overlap], applied to [text].
    The splitter is a third-party library. *)
Variable split_text : string -> string -> list string.

(** [for i, chunk_text in enumerate(chunks): new_corpus[chunk_id] = ...],
    with [i] the index of the first chunk of [chunks]. *)
Fixpoint add_chunks (new_corpus : Py.dict doc) (orig_id title : string)
    (i : nat) (chunks : list string) : Py.dict doc :=
  match chunks with
  | [] => new_corpus
  | chunk_text :: rest =>
      add_chunks
        (Py.set new_corpus (chunk_id orig_id i)
           [("title", title); ("text", chunk_text)])
        orig_id title (S i) rest
  end.

(** One iteration of the loop of [_chunk_corpus] (lines 211-251). *)
Definition chunk_document (new_corpus : Py.dict doc)
    (entry : string * doc) : Py.dict doc :=
  let '(orig_id, d) := entry in
  let title := Py.strip (Py.get_default d "title" "") in
  let text := Py.strip (Py.get_default d "text" "") in
  if String.eqb text "" then new_corpus
  else
    let chunks := split_text title text in
    match chunks with
    | [] => Py.set new_corpus orig_id d
    | _ :: _ => add_chunks new_corpus orig_id title 0 chunks
    end.

Definition _chunk_corpus (corpus : Py.dict doc) : Py.dict doc :=
  fold_left chunk_document corpus [].

End Chunker.

End CodePreprocessor.

(** ** services/embedding_service.py *)

Module EmbeddingService.

(** The Tekken tokenizer of [mistral_common]: [encode(text, bos=False,
    eos=False)] gives token ids, [decode] turns ids back into text. *)
Record Tokenizer : Type := {
  encode : string -> list Z;
  decode : list Z -> string
}.

Definition embedding : Type := list float.

(** The fields of an [EmbeddingService] that the batch code reads.
    [tokenizer] is [None] when [_init_tokenizer] failed. *)
Record service : Type := {
  embed_model : string;
  max_batch_size : Z;
  max_total_tokens : Z;
  max_sequence_length : Z;
  tokenizer : option Tokenizer
}.

(** The constant of the word-count estimate: the binary64 value that
    Python reads for the literal [1.3]. *)
Definition estimate_factor : float := 0x1.4cccccccccccdp+0.

(** [_format_doc] (lines 144-148). *)
Definition _format_doc (d : Py.dict string) : string :=
  let title := Py.strip (Py.get_default d "title" "") in
  let text := Py.strip (Py.get_default d "text" "") in
  if String.eqb title "" then text
  else (title ++ String (ascii_of_nat 10) text)%string.

(** The body of the first loop of [_get_embeddings_batch] (lines
    157-172): what is appended to [valid_texts] for one [text]. *)
Definition truncate (self : service) (text : string) : string :=
  match tokenizer self with
  | Some tk =>
      let tokens := encode tk text in
      if Py.le (Py.Int (Z.of_nat (List.length tokens)))
               (Py.Int (max_sequence_length self))
      then text
      else
        let truncated_tokens :=
          Py.slice_to tokens (max_sequence_length self) in
        decode tk truncated_tokens
  | None => text
  end.

Definition valid_texts_of (self : service) (texts : list string)
  : list string :=
  List.map (truncate self) texts.

(** [text_token_count] (lines 183-188). *)
Definition text_token_count (self : service) (text : string) : Py.num :=
  match tokenizer self with
  | Some tk => Py.Int (Z.of_nat (List.length (encode tk text)))
  | None =>
      Py.mul (Py.Int (Z.of_nat (List.length (Py.split_ws text))))
             (Py.Float estimate_factor)
  end.

(** The local variables of the packing loop (lines 178-180). *)
Record packer : Type := {
  batches : list (list string);
  current_batch : list string;
  current_batch_tokens : Py.num
}.

Definition packer_init : packer :=
  {| batches := []; current_batch := []; current_batch_tokens := Py.Int 0 |}.

(** One iteration of the packing loop (lines 182-201). *)
Definition pack_step (self : service) (st : packer) (text : string)
  : packer :=
  let count := text_token_count self text in
  let st1 :=
    if (Z.of_nat (List.length (current_batch st)) >=? max_batch_size self)
       || Py.gt (Py.add (current_batch_tokens st) count)
                (Py.Int (max_total_tokens self))
    then
      match current_batch st with
      | [] => st
      | _ :: _ =>
          {| batches := batches st ++ [current_batch st];
             current_batch := [];
             current_batch_tokens := Py.Int 0 |}
      end
    else st in
  {| batches := batches st1;
     current_batch := current_batch st1 ++ [text];
     current_batch_tokens := Py.add (current_batch_tokens st1) count |}.

(** Closing the last batch (lines 203-205). *)
Definition pack_finish (st : packer) : list (list string) :=
  match current_batch st with
  | [] => batches st
  | _ :: _ => batches st ++ [current_batch st]
  end.

(** Lines 177-205: the batches built from [valid_texts]. *)
Definition create_batches (self : service) (valid_texts : list string)
  : list (list string) :=
  pack_finish (fold_left (pack_step self) valid_texts packer_init).

(** Lines 155-205: the batches built from the [texts] as given. *)
Definition batches_of (self : service) (texts : list string)
  : list (list string) :=
  create_batches self (valid_texts_of self texts).

(** What the batch loop does to the outside world, in order. *)
Inductive effect : Type :=
| Submit (model : string) (inputs : list string)
| Sleep (seconds : Z).

Definition is_sleep (e : effect) : bool :=
  match e with Sleep _ => true | Submit _ _ => false end.

Definition submitted (tr : list effect) : list (list string) :=
  flat_map (fun e => match e with Submit _ b => [b] | Sleep _ => [] end) tr.

Definition sleeps (tr : list effect) : nat :=
  List.length (List.filter is_sleep tr).

Section Provider.

(** The embedding provider behind [self.client.embeddings.create]: a
    remote service with a state of its own.  It answers a request with
    the vectors of [response.data], or the call raises ([None]). *)
Variable PState : Type.
Variable embeddings_create :
  PState -> string -> list string -> PState * option (list embedding).

Record world : Type := {
  provider : PState;
  trace : list effect
}.

Definition emit (w : world) (e : effect) : world :=
  {| provider := provider w; trace := trace w ++ [e] |}.

(** The batch loop (lines 208-226).  A raised exception is caught and
    the function returns the empty list at once. *)
Fixpoint process_batches (self : service) (bs : list (list string))
    (w : world) (all_embeddings : list embedding)
  : world * list embedding :=
  match bs with
  | [] => (w, all_embeddings)
  | batch :: rest =>
      let '(p, response) :=
        embeddings_create (provider w) (embed_model self) batch in
      let w1 :=
        {| provider := p;
           trace := trace w ++ [Submit (embed_model self) batch] |} in
      match response with
      | Some batch_embeddings =>
          process_batches self rest (emit w1 (Sleep 4))
            (all_embeddings ++ batch_embeddings)
      | None => (w1, [])
      end
  end.

(** [_get_embeddings_batch] (lines 150-226). *)
Definition _get_embeddings_batch (self : service) (w : world)
    (texts : list string) : world * list embedding :=
  match texts with
  | [] => (w, [])
  | _ :: _ =>
      let valid_texts := valid_texts_of self texts in
      match valid_texts with
      | [] => (w, [])
      | _ :: _ =>
          process_batches self (create_batches self valid_texts) w []
      end
  end.

(** Lines 98-100 of [run]: the texts handed to the batch code, one per
    chunk, in the order of the chunks. *)
Definition texts_to_embed (chunks : Py.dict (Py.dict string))
  : list string :=
  List.map (fun kv => _format_doc (snd kv)) chunks.

(** Lines 103-108 of [run]: the file a chunk identifier came from. *)
Definition original_file (chunk_id : string) : string :=
  if Py.contains CodePreprocessor.chunk_marker chunk_id
  then Py.item0 (Py.split chunk_id CodePreprocessor.chunk_marker)
  else chunk_id.

(** What [run] writes to [metadata.json]. *)
Record metadata : Type := {
  chunk_ids : list string;
  chunk_to_file : Py.dict string;
  num_chunks : nat;
  embedding_dimension : nat;
  model : string
}.

(** [run] from the loaded [chunks] on (lines 88-142): [None] is the
    [return False] of a failed stage, [Some] carries what is written
    to [embeddings.pkl] and [metadata.json].  The conversion to a
    [float32] array (line 120) is left out: it rounds the values and
    raises on vectors of unequal length, so [Some] stands for what the
    code saves when the vectors form a rectangular array, and the
    values are those of the provider before that rounding. *)
Definition run (self : service) (w : world)
    (chunks : Py.dict (Py.dict string))
  : world * option (list embedding * metadata) :=
  match chunks with
  | [] => (w, None)
  | _ :: _ =>
      let texts := texts_to_embed chunks in
      let ids := Py.keys chunks in
      let to_file :=
        fold_left (fun d id => Py.set d id (original_file id)) ids [] in
      let '(w', all_embeddings) :=
        _get_embeddings_batch self w texts in
      if match all_embeddings with [] => true | _ => false end
         || negb (List.length all_embeddings =? List.length texts)%nat
      then (w', None)
      else
        (w', Some (all_embeddings,
                   {| chunk_ids := ids;
                      chunk_to_file := to_file;
                      num_chunks := List.length ids;
                      embedding_dimension :=
                        List.length (List.hd [] all_embeddings);
                      model := embed_model self |}))
  end.

End Provider.

Arguments provider {PState} w.
Arguments trace {PState} w.
Arguments Build_world {PState} provider trace.
Arguments emit {PState} w e.
Arguments process_batches {PState} embeddings_create self bs w all_embeddings.
Arguments _get_embeddings_batch {PState} embeddings_create self w texts.
Arguments run {PState} embeddings_create self w chunks.

End EmbeddingService.

(** ** services/github_fetcher.py and pipeline.py *)

Module Pipeline.

(** A [pathlib.Path], as its components below the root. *)
Definition path : Type := list string.

(** [p / name]: the components of [name] are appended; empty and [.]
    components vanish, and a [name] that starts at the root replaces [p]. *)
Definition joinpath (p : path) (name : string) : path :=
  let parts :=
    List.filter (fun c => negb (String.eqb c "" || String.eqb c "."))
                (Py.split name "/") in
  if String.prefix "/" name then parts else p ++ parts.

(** [p] with all its parents, as [mkdir(parents=True)] creates them. *)
Fixpoint with_parents (p : path) : list path :=
  match p with
  | [] => [[]]
  | c :: p' => [] :: List.map (cons c) (with_parents p')
  end.

Definition mkdir_parents (fs : gset path) (p : path) : gset path :=
  fs ∪ list_to_set (with_parents p).

(** [shutil.rmtree(p)]: [p] goes, with everything below it. *)
Definition rmtree (fs : gset path) (p : path) : gset path :=
  filter (fun q => ¬ p `prefix_of` q) fs.

(** [repo_url.rstrip('/')]. *)
Fixpoint rstrip_slash (s : string) : string :=
  match s with
  | EmptyString => EmptyString
  | String c s' =>
      match rstrip_slash s' with
      | EmptyString =>
          if Ascii.eqb c "/" then EmptyString else String c EmptyString
      | r => String c r
      end
  end.

(** [extract_repo_name]: [repo_url.split("/")[-1]]. *)
Definition extract_repo_name (repo_url : string) : string :=
  List.last (Py.split repo_url "/") "".

Inductive stage : Type := Fetch | Preprocess | Embed | Index.

(** How a stage ends: it returns [True], returns [False], or raises. *)
Inductive outcome : Type := Done | Failed | Raised.

(** The directory tree and the stages started so far, each with its tag. *)
Record state : Type := {
  fs : gset path;
  started : list (string * stage)
}.

Section Run.

(** The network and the archive: the paths (relative to the target
    directory) that downloading and unpacking [zip_url] leaves there,
    or [None] when any step of it raises. *)
Variable fetch_archive : string -> option (list path).

(** The three later stages, [preprocessor.run(raw_dir, preprocessed_dir)],
    [embedding_service.run(preprocessed_dir, embeddings_dir)] and
    [indexer.index_repository(embeddings_dir, repo_name, tag, repo_url)],
    as they act on the directory tree. *)
Variable preprocessor_run : path -> path -> gset path -> gset path * outcome.
Variable embedding_run : path -> path -> gset path -> gset path * outcome.
Variable index_repository :
  path -> string -> string -> string -> gset path -> gset path * outcome.

(** [Path(__file__).parent / "data"]. *)
Variable data_dir : path.

(** The archive address that [download_repo] builds (lines 33-38): a
    tag that is [None] or empty selects the main branch. *)
Definition zip_url (repo_url : string) (tag : option string) : string :=
  match tag with
  | Some (String c t) =>
      (rstrip_slash repo_url ++ "/archive/refs/tags/"
         ++ String c t ++ ".zip")%string
  | _ => (rstrip_slash repo_url ++ "/archive/refs/heads/main.zip")%string
  end.

(** [download_repo] (github_fetcher.py, lines 14-76).  Creating the
    target directory is taken to succeed; everything after it is the
    business of [fetch_archive]. *)
Definition download_repo (tree : gset path) (repo_url : string)
    (target_dir : path) (tag : option string) : gset path * bool :=
  let tree1 := mkdir_parents tree target_dir in
  match fetch_archive (zip_url repo_url tag) with
  | Some files =>
      (tree1 ∪ list_to_set (List.map (app target_dir) files), true)
  | None =>
      ((if decide (target_dir ∈ tree1) then rmtree tree1 target_dir
        else tree1), false)
  end.

(** The directories of a tag (lines 64-69). *)
Definition repo_dir (repo_name tag : string) : path :=
  joinpath (joinpath data_dir repo_name) tag.

Definition raw_dir (repo_name tag : string) : path :=
  joinpath (repo_dir repo_name tag) "stage=raw".

Definition preprocessed_dir (repo_name tag : string) : path :=
  joinpath (repo_dir repo_name tag) "stage=preprocessed".

Definition embeddings_dir (repo_name tag : string) : path :=
  joinpath (repo_dir repo_name tag) "stage=embeddings".

(** The stages of one tag after the download (pipeline.py, lines
    83-106).  The flag tells whether the loop goes on to the next tag
    ([true]) or [run_pipeline] returns here ([false]). *)
Definition run_stages (repo_url repo_name tag : string) (st : state)
  : state * bool :=
  let '(tree1, r1) :=
    preprocessor_run (raw_dir repo_name tag) (preprocessed_dir repo_name tag)
      (fs st) in
  let st1 :=
    {| fs := tree1; started := started st ++ [(tag, Preprocess)] |} in
  match r1 with
  | Done =>
      let '(tree2, r2) :=
        embedding_run (preprocessed_dir repo_name tag)
          (embeddings_dir repo_name tag) tree1 in
      let st2 :=
        {| fs := tree2; started := started st1 ++ [(tag, Embed)] |} in
      match r2 with
      | Done =>
          let '(tree3, r3) :=
            index_repository (embeddings_dir repo_name tag) repo_name tag
              repo_url tree2 in
          let st3 :=
            {| fs := tree3; started := started st2 ++ [(tag, Index)] |} in
          match r3 with
          | Raised => (st3, false)
          | _ => (st3, true)
          end
      | _ => (st2, false)
      end
  | _ => (st1, false)
  end.

(** The loop over the tags (pipeline.py, lines 60-106).  The flag is
    [true] when the loop ran through all its tags and [false] when a
    [return] ended [run_pipeline] before. *)
Fixpoint process_tags (repo_url repo_name : string) (tags : list string)
    (st : state) : state * bool :=
  match tags with
  | [] => (st, true)
  | tag :: rest =>
      let '(st1, success) :=
        if decide (repo_dir repo_name tag ∈ fs st) then (st, true)
        else
          let '(tree, ok) :=
            download_repo (fs st) repo_url (raw_dir repo_name tag)
              (if String.eqb tag "latest" then None else Some tag) in
          ({| fs := tree; started := started st ++ [(tag, Fetch)] |}, ok) in
      if success then
        let '(st2, continue) := run_stages repo_url repo_name tag st1 in
        if continue then process_tags repo_url repo_name rest st2
        else (st2, false)
      else (st1, false)
  end.

(** [run_pipeline] (pipeline.py, lines 31-106), once both API keys are
    found in the environment. *)
Definition run_pipeline (repo_url : string) (tags : list string)
    (st : state) : state :=
  let repo_name := extract_repo_name repo_url in
  let tags := match tags with [] => ["latest"] | _ :: _ => tags end in
  fst (process_tags repo_url repo_name tags st).

End Run.

End Pipeline.

(** ** Concrete instances used to exercise the model *)

Module Instances.

Import EmbeddingService.

(** A tokenizer with one token per character. *)
Definition char_tokenizer : Tokenizer :=
  {| encode := fun s =>
       List.map (fun c => Z.of_N (N_of_ascii c)) (list_ascii_of_string s);
     decode := fun l =>
       string_of_list_ascii (List.map (fun z => ascii_of_N (Z.to_N z)) l) |}.

(** [EmbeddingService(max_batch_size=2, max_total_tokens=4,
    max_sequence_length=3)]: limits small enough to follow by hand. *)
Definition small_service (tk : option Tokenizer) : service :=
  {| embed_model := "codestral-embed";
     max_batch_size := 2;
     max_total_tokens := 4;
     max_sequence_length := 3;
     tokenizer := tk |}.

(** A provider that counts its calls and raises on call number
    [fail_at] (from 0); otherwise it returns one vector per input. *)
Definition flaky_create (fail_at : nat) (calls : nat) (model : string)
    (inputs : list string) : nat * option (list embedding) :=
  (S calls,
   if (calls =? fail_at)%nat then None
   else Some (List.map (fun _ => [PrimFloat.zero]) inputs)).

(** The world before any call. *)
Definition fresh_world : world nat := {| provider := 0%nat; trace := [] |}.

(** Three chunks of one file, three characters each, without titles. *)
Definition three_chunks : Py.dict (Py.dict string) :=
  [("a.py_<chunk>_0", [("title", ""); ("text", "abc")]);
   ("a.py_<chunk>_1", [("title", ""); ("text", "def")]);
   ("a.py_<chunk>_2", [("title", ""); ("text", "ghi")])].

(** A splitter that gives no chunk at all, and one that gives the text
    back as its only chunk. *)
Definition no_chunks (title text : string) : list string := [].

Definition one_chunk (title text : string) : list string := [text].

(** A corpus of one small file. *)
Definition one_file_corpus : Py.dict CodePreprocessor.doc :=
  [("a.py", [("title", "a.py"); ("text", "x = 1")])].

(** A network on which the archives whose address contains [bad] cannot
    be fetched, and every other archive holds one file. *)
Definition failing_fetch (bad : string) (url : string)
  : option (list Pipeline.path) :=
  if Py.contains bad url then None else Some [["main.py"]].

(** Later stages that always succeed; the first two create their
    output directory. *)
Definition stage_ok (input output : Pipeline.path) (tree : gset Pipeline.path)
  : gset Pipeline.path * Pipeline.outcome :=
  (tree ∪ {[output]}, Pipeline.Done).

Definition index_ok (input : Pipeline.path) (repo_name tag repo_url : string)
    (tree : gset Pipeline.path) : gset Pipeline.path * Pipeline.outcome :=
  (tree, Pipeline.Done).

Definition empty_state : Pipeline.state :=
  {| Pipeline.fs := ∅; Pipeline.started := [] |}.

(** [run_pipeline("https://github.com/owner/repo", tags)] on an empty
    data directory, with the archives of [bad] out of reach. *)
Definition pipeline_run (bad : string) (tags : list string) : Pipeline.state :=
  Pipeline.run_pipeline (failing_fetch bad) stage_ok stage_ok index_ok
    ["data"] "https://github.com/owner/repo" tags empty_state.

End Instances.

(** ** The statements of the specification *)

Import EmbeddingService.

(** [len(tokens)] for the tokens of [x]. *)
Definition token_count (tk : Tokenizer) (x : string) : Z :=
  Z.of_nat (List.length (encode tk x)).

(** [sum(token_count for item in batch)] with a tokenizer. *)
Definition token_sum (tk : Tokenizer) (b : list string) : Z :=
  fold_right Z.add 0 (List.map (token_count tk) b).

(** The token total of a batch with or without a tokenizer, added up
    as the packing loop does: from the integer [0], left to right. *)
Definition batch_tokens (self : service) (b : list string) : Py.num :=
  fold_left (fun acc x => Py.add acc (text_token_count self x)) b (Py.Int 0).

(** The batch limit property as the specification words it: a batch
    keeps both limits, or it is a single item that counts at most
    [max_sequence_length] tokens. *)
Definition keeps_both_limits (self : service) (b : list string) : Prop :=
  Z.of_nat (List.length b) <= max_batch_size self /\
  Py.le (batch_tokens self b) (Py.Int (max_total_tokens self)) = true.

Definition truncated_singleton (self : service) (b : list string) : Prop :=
  exists x, b = [x] /\
    Py.le (text_token_count self x) (Py.Int (max_sequence_length self)) = true.

Definition stated_batch_limits (self : service) (texts : list string) : Prop :=
  max_sequence_length self <= max_total_tokens self ->
  forall b, In b (batches_of self texts) ->
    keeps_both_limits self b \/ truncated_singleton self b.

(** What the packing loop does guarantee, whatever the counts are: a
    batch is not empty, has at most [max_batch_size] items when that
    limit allows any, and is within the token budget unless it is a
    single item. *)
Definition within_budget (self : service) (b : list string) : bool :=
  negb (Py.gt (batch_tokens self b) (Py.Int (max_total_tokens self))).

Definition batch_ok (self : service) (b : list string) : Prop :=
  b <> [] /\
  (1 <= max_batch_size self -> Z.of_nat (List.length b) <= max_batch_size self) /\
  (within_budget self b = true \/ exists x, b = [x]).

(** The invariant of the packing loop. *)
Definition packer_inv (self : service) (st : packer) : Prop :=
  Forall (batch_ok self) (batches st) /\
  current_batch_tokens st = batch_tokens self (current_batch st) /\
  (current_batch st = [] \/ batch_ok self (current_batch st)).

(** The number of whitespace-separated words of a text, and the
    estimate the specification gives for it: [ceil(words * 1.3)]. *)
Definition word_count (text : string) : Z :=
  Z.of_nat (List.length (Py.split_ws text)).

Definition ceil_estimate (text : string) : Z :=
  (13 * word_count text + 9) / 10.

(** The estimate as the specification words it: numerically equal to
    [ceil_estimate]. *)
Definition stated_token_estimate (self : service) (text : string) : Prop :=
  tokenizer self = None ->
  Py.le (text_token_count self text) (Py.Int (ceil_estimate text)) = true /\
  Py.le (Py.Int (ceil_estimate text)) (text_token_count self text) = true.

(** A binary64 value that is a number and not below zero. *)
Definition sf_nonneg (x : spec_float) : Prop :=
  match x with
  | S754_zero _ => True
  | S754_infinity s | S754_finite s _ _ => s = false
  | S754_nan => False
  end.




(** The idempotence of the truncation as the specification words it:
    an item that has been truncated counts [max_sequence_length]
    tokens, and the truncation step gives it back as it is. *)
Definition stated_truncate_idempotent (self : service) (tk : Tokenizer)
  : Prop :=
  forall text,
    max_sequence_length self < token_count tk text ->
    token_count tk (truncate self text) = max_sequence_length self /\
    truncate self (truncate self text) = truncate self text.

(** The index of the first batch on which the provider raises, when
    the batches are submitted in order from provider state [p]. *)
Fixpoint first_failure {PState : Type}
    (embeddings_create :
       PState -> string -> list string -> PState * option (list embedding))
    (self : service) (bs : list (list string)) (p : PState) : option nat :=
  match bs with
  | [] => None
  | batch :: rest =>
      match embeddings_create p (embed_model self) batch with
      | (_, None) => Some O
      | (p', Some _) =>
          option_map S (first_failure embeddings_create self rest p')
      end
  end.

(** The pacing as the specification words it: a run of [n] successful
    batches sleeps [n - 1] times (and not at all for [n <= 1]). *)
Definition stated_pacing {PState : Type}
    (embeddings_create :
       PState -> string -> list string -> PState * option (list embedding))
    (self : service) (w : world PState) (texts : list string) : Prop :=
  first_failure embeddings_create self (batches_of self texts) (provider w)
  = None ->
  sleeps (trace (fst (_get_embeddings_batch embeddings_create self w texts)))
  = (sleeps (trace w) + (List.length (batches_of self texts) - 1))%nat.

(** The part of [s] before the first occurrence of [sep]; all of [s]
    when there is none. *)
Fixpoint before (sep s : string) : string :=
  if String.prefix sep s then EmptyString
  else match s with
       | EmptyString => EmptyString
       | String c s' => String c (before sep s')
       end.

(** The marker without its last character. *)
Definition open_marker : string := "_<chunk>".

(** The chunk identifier round trip as the specification words it. *)
Definition stated_id_round_trip (d : string) (i : nat) : Prop :=
  original_file (CodePreprocessor.chunk_id d i) = d.

(** The fallback of the chunker as the specification words it: a
    document with text whose splitter gives no chunk is found in the
    result as chunk 0 of itself. *)
Definition stated_fallback_chunk (split_text : string -> string -> list string)
    (corpus : Py.dict CodePreprocessor.doc) (orig_id : string)
    (d : CodePreprocessor.doc) : Prop :=
  In (orig_id, d) corpus ->
  Py.strip (Py.get_default d "text" "") <> "" ->
  split_text (Py.strip (Py.get_default d "title" ""))
             (Py.strip (Py.get_default d "text" "")) = [] ->
  exists chunk,
    Py.get (CodePreprocessor._chunk_corpus split_text corpus)
           (CodePreprocessor.chunk_id orig_id 0) = Some chunk.

(** Fetch failures as the specification words them: when the fetch of
    a tag was started and its archive cannot be fetched, every later
    tag of the list is still processed. *)
Definition stated_fetch_failure
    (fetch_archive : string -> option (list Pipeline.path))
    (preprocessor_run embedding_run :
       Pipeline.path -> Pipeline.path -> gset Pipeline.path ->
       gset Pipeline.path * Pipeline.outcome)
    (index_repository :
       Pipeline.path -> string -> string -> string -> gset Pipeline.path ->
       gset Pipeline.path * Pipeline.outcome)
    (data_dir : Pipeline.path) (repo_url : string) (tags : list string)
    (st : Pipeline.state) : Prop :=
  forall pre tag rest,
    tags = pre ++ tag :: rest ->
    In (tag, Pipeline.Fetch)
       (Pipeline.started
          (Pipeline.run_pipeline fetch_archive preprocessor_run embedding_run
             index_repository data_dir repo_url tags st)) ->
    fetch_archive
      (Pipeline.zip_url repo_url
         (if String.eqb tag "latest" then None else Some tag))
    = None ->
    forall later, In later rest ->
      exists stg,
        In (later, stg)
           (Pipeline.started
              (Pipeline.run_pipeline fetch_archive preprocessor_run
                 embedding_run index_repository data_dir repo_url tags st)).

(** ** services/code_preprocessor.py: flattening a repository *)

Module Flatten.

Import CodePreprocessor.

(** [str.lower] on one character, for code points below 256: the
    letters A..Z and the accented capitals, which lie 32 below their
    small forms. *)
Definition lower_char (c : ascii) : ascii :=
  let n := N_of_ascii c in
  if ((65 <=? n) && (n <=? 90)
      || (192 <=? n) && (n <=? 222) && negb (n =? 215))%N
  then ascii_of_N (n + 32)
  else c.

Fixpoint lower (s : string) : string :=
  match s with
  | EmptyString => EmptyString
  | String c s' => String (lower_char c) (lower s')
  end.

(** [Path.name]: the last component. *)
Definition name (p : Pipeline.path) : string := List.last p "".

(** The part of [s] from its last dot on, if it has a dot. *)
Fixpoint from_last_dot (s : string) : option string :=
  match s with
  | EmptyString => None
  | String c s' =>
      match from_last_dot s' with
      | Some r => Some r
      | None => if Ascii.eqb c "." then Some s else None
      end
  end.

(** [Path.suffix]: the name from its last dot on, unless that dot is
    the first or the last character of the name. *)
Definition suffix (p : Pipeline.path) : string :=
  match name p with
  | EmptyString => ""
  | String _ rest =>
      match from_last_dot rest with
      | Some (String _ (String c r)) => String "." (String c r)
      | _ => ""
      end
  end.

(** [str(p)] for a relative path. *)
Definition str_path (p : Pipeline.path) : string :=
  match p with
  | [] => "."
  | _ :: _ => String.concat "/" p
  end.

(** One item of [repo_path.rglob("*")]: its path below [repo_path],
    whether it is a file, and what reading it as text gives ([None]
    when opening or reading raises). *)
Record entry : Type := {
  relative_path : Pipeline.path;
  is_file : bool;
  read : option string
}.

(** Lines 80-109. *)
Definition code_extensions : list string :=
  [".py"; ".js"; ".ts"; ".java"; ".cpp"; ".c"; ".h"; ".hpp"; ".cs"; ".rb";
   ".go"; ".rs"; ".php"; ".swift"; ".kt"; ".scala"; ".r"; ".m"; ".mm";
   ".sh"; ".ps1"; ".sql"; ".html"; ".css"; ".jsx"; ".tsx"; ".vue";
   ".svelte"].

(** Lines 134-142. *)
Definition skip_patterns : list string :=
  [".git"; "__pycache__"; ".pytest_cache"; "node_modules"; ".venv"; ".env";
   ".DS_Store"].

(** [_should_skip_file] (lines 132-150).  The items of [rglob] lie
    below [repo_path], so the name of the file is the last component
    of its relative path. *)
Definition _should_skip_file (file_path : Pipeline.path) : bool :=
  let file_name := lower (name file_path) in
  List.existsb (fun pattern => Py.contains pattern file_name) skip_patterns.

(** The condition of lines 112-116. *)
Definition is_code_file (e : entry) : bool :=
  is_file e
  && List.existsb (String.eqb (lower (suffix (relative_path e))))
       code_extensions
  && negb (_should_skip_file (relative_path e)).

(** One iteration of the loop of [_flatten_repository] (lines 111-128). *)
Definition flatten_entry (flattened : Py.dict string) (e : entry)
  : Py.dict string :=
  if is_code_file e then
    match read e with
    | Some raw =>
        let content := Py.strip raw in
        if String.eqb content "" then flattened
        else Py.set flattened (str_path (relative_path e)) content
    | None => flattened
    end
  else flattened.

(** [_flatten_repository] (lines 67-130) on the items that [rglob]
    yields, in the order in which it yields them. *)
Definition _flatten_repository (listing : list entry) : Py.dict string :=
  fold_left flatten_entry listing [].

(** Lines 50-52 of [run]: the corpus handed to the chunker. *)
Definition corpus_of (flattened_files : Py.dict string) : Py.dict doc :=
  fold_left
    (fun corpus kv =>
       Py.set corpus (fst kv) [("title", fst kv); ("text", snd kv)])
    flattened_files [].

(** [CodePreprocessor.run] from line 43 on: what is written to
    [corpus.json] and to [chunks.json]. *)
Definition run (split_text : string -> string -> list string)
    (listing : list entry) : Py.dict string * Py.dict doc :=
  let flattened_files := _flatten_repository listing in
  (flattened_files, _chunk_corpus split_text (corpus_of flattened_files)).

(** What one item of the listing contributes to the flattened
    repository. *)
Definition flattened_item (e : entry) : Py.dict string :=
  if is_code_file e then
    match read e with
    | Some raw =>
        if String.eqb (Py.strip raw) "" then []
        else [(str_path (relative_path e), Py.strip raw)]
    | None => []
    end
  else [].

(** A flattened file as the chunker needs it: not empty and free of
    surrounding whitespace. *)
Definition stripped_text (kv : string * string) : Prop :=
  snd kv <> "" /\ Py.strip (snd kv) = snd kv.

End Flatten.

(** ** services/pinecone_indexer.py *)

Module PineconeIndexer.

Import EmbeddingService.

(** A vector as it is sent to the index (lines 104-110). *)
Record vector : Type := {
  id : string;
  values : embedding;
  vector_metadata : Py.dict string
}.

(** Line 81. *)
Definition batch_size : nat := 100.

(** Lines 86-110: the vector of one chunk.  [metadata] is what [run]
    has written, so its model is always there. *)
Definition make_vector (repo_name version repo_url : string)
    (md : metadata) (item : string * embedding) : vector :=
  let '(chunk_id, e) := item in
  let vector_id := (repo_name ++ ":" ++ version ++ ":" ++ chunk_id)%string in
  let file_path := Py.get_default (chunk_to_file md) chunk_id chunk_id in
  let file_url :=
    (repo_url ++ "/blob/" ++ version ++ "/" ++ file_path)%string in
  {| id := vector_id;
     values := e;
     vector_metadata :=
       [("repo_name", repo_name); ("version", version);
        ("chunk_id", chunk_id); ("original_file", file_url);
        ("model", model md)] |}.

(** One iteration of the loop (lines 83-115): the calls of [upsert]
    made so far and the vectors waiting for the next one. *)
Definition index_chunk (repo_name version repo_url : string)
    (md : metadata) (st : list (list vector) * list vector)
    (item : string * embedding) : list (list vector) * list vector :=
  let '(calls, vectors) := st in
  let vectors := vectors ++ [make_vector repo_name version repo_url md item] in
  if (batch_size <=? List.length vectors)%nat then (calls ++ [vectors], [])
  else (calls, vectors).

(** [index_repository] from line 79 on: the calls of [index.upsert],
    in order, each with its vectors.  [embeddings] holds the rows of
    the loaded array. *)
Definition index_repository (repo_name version repo_url : string)
    (md : metadata) (embeddings : list embedding) : list (list vector) :=
  let '(calls, vectors) :=
    fold_left (index_chunk repo_name version repo_url md)
      (List.combine (chunk_ids md) embeddings) ([], []) in
  match vectors with
  | [] => calls
  | _ :: _ => calls ++ [vectors]
  end.

End PineconeIndexer.

(** ** Further instances *)

Module Fixtures.

Import EmbeddingService.

(** A tokenizer with one token per character whose [decode] puts a
    space in front of the text, as tokenizers do that mark the start
    of a word. *)
Definition padding_tokenizer : Tokenizer :=
  {| encode := encode Instances.char_tokenizer;
     decode := fun l =>
       String " " (decode Instances.char_tokenizer l) |}.

(** The vector of a text, for a provider that always answers: its length. *)
Definition length_embedding (text : string) : embedding :=
  [Py.float_of_Z (Z.of_nat (String.length text))].

(** A provider that counts its calls and answers every request. *)
Definition steady_create (calls : nat) (model : string)
    (inputs : list string) : nat * option (list embedding) :=
  (S calls, Some (List.map length_embedding inputs)).

(** What a successful stage has saved. *)
Definition saved (r : option (list embedding * metadata))
  : list embedding * metadata :=
  match r with
  | Some x => x
  | None => ([], {| chunk_ids := []; chunk_to_file := []; num_chunks := 0;
                    embedding_dimension := 0; model := "" |})
  end.

(** What [run] saves for the three chunks with that provider. *)
Definition three_chunks_saved : list embedding * metadata :=
  saved (snd (run steady_create
                (Instances.small_service (Some Instances.char_tokenizer))
                Instances.fresh_world Instances.three_chunks)).

(** A splitter that cuts a text into its words. *)
Definition words (title text : string) : list string := Py.split_ws text.

(** A corpus of two files and a document without text. *)
Definition two_file_corpus : Py.dict CodePreprocessor.doc :=
  [("a.py", [("title", " a.py "); ("text", "x = 1")]);
   ("notes", [("title", "notes"); ("text", "  ")]);
   ("b/c.js", [("title", "b/c.js"); ("text", "let y")])].

(** A small repository: a script with blank lines around it, a
    module in a vendored directory, an environment file, a text file,
    an empty script, a directory and a file that cannot be read. *)
Definition small_repo : list Flatten.entry :=
  [ {| Flatten.relative_path := ["main.PY"]; Flatten.is_file := true;
       Flatten.read := Some "
x = 1
" |};
    {| Flatten.relative_path := ["node_modules"; "lib"; "index.js"];
       Flatten.is_file := true; Flatten.read := Some "let y" |};
    {| Flatten.relative_path := ["conf"; "a.env.sh"];
       Flatten.is_file := true; Flatten.read := Some "K=1" |};
    {| Flatten.relative_path := ["README.md"]; Flatten.is_file := true;
       Flatten.read := Some "text" |};
    {| Flatten.relative_path := ["empty.py"]; Flatten.is_file := true;
       Flatten.read := Some "  " |};
    {| Flatten.relative_path := ["src.py"]; Flatten.is_file := false;
       Flatten.read := None |};
    {| Flatten.relative_path := ["locked.c"]; Flatten.is_file := true;
       Flatten.read := None |} ].

(** What [run] saves for the chunks of the two files. *)
Definition two_files_saved : list embedding * metadata :=
  saved (snd (run steady_create
                (Instances.small_service (Some Instances.char_tokenizer))
                Instances.fresh_world
                (CodePreprocessor._chunk_corpus words two_file_corpus))).

(** A network on which every archive can be fetched. *)
Definition fetch_ok (url : string) : option (list Pipeline.path) :=
  Some [["main.py"]].

End Fixtures.

(** ** Statements about the pipeline *)

(** The stages of a tag after its download. *)
Definition later_stages (tag : string) : list (string * Pipeline.stage) :=
  [(tag, Pipeline.Preprocess); (tag, Pipeline.Embed); (tag, Pipeline.Index)].

Definition is_later_stage (x : string * Pipeline.stage) : bool :=
  match snd x with
  | Pipeline.Fetch => false
  | _ => true
  end.

(** ** The batch code as a whole *)

(** The relation of two neighbouring batches in a greedy packing: the
    first item of the second batch did not fit into the first. *)
Definition closed_for (self : service) (b : list string) (x : string) : bool :=
  (Z.of_nat (List.length b) >=? max_batch_size self)
  || Py.gt (Py.add (batch_tokens self b) (text_token_count self x))
           (Py.Int (max_total_tokens self)).

Definition closed_before (self : service) (b1 b2 : list string) : Prop :=
  match b2 with
  | [] => True
  | x :: _ => closed_for self b1 x = true
  end.

(** [R] holds between every two neighbours of a list. *)
Fixpoint chain {A} (R : A -> A -> Prop) (l : list A) : Prop :=
  match l with
  | a :: ((b :: _) as rest) => R a b /\ chain R rest
  | _ => True
  end.

(** The batches closed so far and the open one, if it has items. *)
Definition all_batches (st : packer) : list (list string) :=
  match current_batch st with
  | [] => batches st
  | _ :: _ => batches st ++ [current_batch st]
  end.

(** What the packing loop keeps true of its state. *)
Definition greedy_inv (self : service) (st : packer) : Prop :=
  chain (closed_before self) (all_batches st) /\
  current_batch_tokens st = batch_tokens self (current_batch st) /\
  (current_batch st = [] -> batches st = []).

(** ** The chunker as a whole *)

(** A document identifier for which the round trip of chunk
    identifiers works. *)
Definition clean_id (d : string) : bool :=
  negb (Py.contains CodePreprocessor.chunk_marker d)
  && negb (Py.endswith d open_marker).

(** The chunks of one document with their identifiers, counted from [i]. *)
Fixpoint numbered (orig_id title : string) (i : nat) (chunks : list string)
  : Py.dict CodePreprocessor.doc :=
  match chunks with
  | [] => []
  | chunk_text :: rest =>
      (CodePreprocessor.chunk_id orig_id i,
       [("title", title); ("text", chunk_text)])
      :: numbered orig_id title (S i) rest
  end.

(** What one document contributes to the chunked corpus. *)
Definition entries_of (split_text : string -> string -> list string)
    (entry : string * CodePreprocessor.doc) : Py.dict CodePreprocessor.doc :=
  let title := Py.strip (Py.get_default (snd entry) "title" "") in
  let text := Py.strip (Py.get_default (snd entry) "text" "") in
  if String.eqb text "" then []
  else
    match split_text title text with
    | [] => [entry]
    | chunks => numbered (fst entry) title 0 chunks
    end.

(** A document with text. *)
Definition has_text (entry : string * CodePreprocessor.doc) : bool :=
  negb (String.eqb (Py.strip (Py.get_default (snd entry) "text" "")) "").

(** * Properties *)

(** ** The batch packer *)

Section Packer.

Variable self : service.

Lemma pack_step_concat st x :
  concat (batches (pack_step self st x)) ++ current_batch (pack_step self st x)
  = concat (batches st) ++ current_batch st ++ [x].
Proof.
  unfold pack_step.
  destruct (_ || _); [destruct (current_batch st) eqn:E |];
    cbn [batches current_batch].
  - rewrite E. reflexivity.
  - rewrite concat_app. cbn. rewrite !app_nil_r, <- app_assoc. reflexivity.
  - rewrite app_assoc. reflexivity.
Qed.

Lemma pack_concat vts : forall st,
  concat (pack_finish (fold_left (pack_step self) vts st))
  = concat (batches st) ++ current_batch st ++ vts.
Proof.
  induction vts as [|x vts IH]; intros st; cbn [fold_left].
  - unfold pack_finish. destruct (current_batch st) eqn:E.
    + now rewrite !app_nil_r.
    + rewrite concat_app. cbn. now rewrite !app_nil_r.
  - rewrite IH, app_assoc, pack_step_concat, <- !app_assoc. reflexivity.
Qed.

Lemma create_batches_concat vts : concat (create_batches self vts) = vts.
Proof. unfold create_batches. apply (pack_concat vts packer_init). Qed.

Lemma create_batches_single x : create_batches self [x] = [[x]].
Proof.
  unfold create_batches, pack_finish, pack_step.
  cbn [fold_left packer_init current_batch batches].
  destruct (_ || _); reflexivity.
Qed.

Lemma batch_tokens_snoc b x :
  batch_tokens self (b ++ [x])
  = Py.add (batch_tokens self b) (text_token_count self x).
Proof. unfold batch_tokens. now rewrite fold_left_app. Qed.

Lemma packer_inv_init : packer_inv self packer_init.
Proof. repeat split; cbn; auto. Qed.

Lemma packer_inv_step st x :
  packer_inv self st -> packer_inv self (pack_step self st x).
Proof.
  intros (Hbs & Htok & Hcur). unfold pack_step.
  destruct (_ || _) eqn:Hcond.
  - destruct (current_batch st) as [|y cb] eqn:E;
      cbn [batches current_batch current_batch_tokens].
    + rewrite E, Htok. repeat split; auto.
      right. repeat split; cbn; [discriminate | lia | eauto].
    + repeat split.
      * apply Forall_app. split; [exact Hbs|]. constructor; [|constructor].
        destruct Hcur as [Hcur|Hcur]; [discriminate | exact Hcur].
      * right. repeat split; cbn; [discriminate | lia | eauto].
  - apply orb_false_iff in Hcond as [Hlen Hgt].
    rewrite Z.geb_leb in Hlen. apply Z.leb_gt in Hlen.
    split; [exact Hbs|]. cbn [batches current_batch current_batch_tokens].
    split; [rewrite Htok; symmetry; apply batch_tokens_snoc|].
    right. repeat split.
    + destruct (current_batch st); discriminate.
    + rewrite length_app. cbn. lia.
    + left. unfold within_budget.
      rewrite batch_tokens_snoc, <- Htok, Hgt. reflexivity.
Qed.

Lemma packer_inv_fold vts : forall st,
  packer_inv self st -> packer_inv self (fold_left (pack_step self) vts st).
Proof.
  induction vts as [|x vts IH]; intros st H; cbn; auto.
  apply IH, packer_inv_step, H.
Qed.

Lemma packer_inv_finish st :
  packer_inv self st -> Forall (batch_ok self) (pack_finish st).
Proof.
  intros (Hbs & _ & Hcur). unfold pack_finish.
  destruct (current_batch st) eqn:E; auto.
  apply Forall_app. split; auto. constructor; auto.
  destruct Hcur as [Hcur|Hcur]; [discriminate | exact Hcur].
Qed.

(** Every batch is non-empty, has at most [max_batch_size] items, and
    exceeds the token budget only if it is a single item. *)
Lemma create_batches_ok vts : Forall (batch_ok self) (create_batches self vts).
Proof. apply packer_inv_finish, packer_inv_fold, packer_inv_init. Qed.


End Packer.

Section PackerWithTokenizer.

Variable self : service.
Variable tk : Tokenizer.
Hypothesis has_tokenizer : tokenizer self = Some tk.

Lemma text_token_count_int x :
  text_token_count self x = Py.Int (token_count tk x).
Proof. unfold text_token_count. now rewrite has_tokenizer. Qed.

Lemma fold_tokens_int b : forall a,
  fold_left (fun acc x => Py.add acc (text_token_count self x)) b (Py.Int a)
  = Py.Int (a + token_sum tk b).
Proof.
  unfold token_sum.
  induction b as [|x b IH]; intros a; cbn.
  - f_equal. lia.
  - rewrite text_token_count_int. cbn. rewrite IH. f_equal. lia.
Qed.

Lemma batch_tokens_int b : batch_tokens self b = Py.Int (token_sum tk b).
Proof. unfold batch_tokens. now rewrite fold_tokens_int. Qed.

Lemma within_budget_int b :
  within_budget self b = true <-> token_sum tk b <= max_total_tokens self.
Proof.
  unfold within_budget. rewrite batch_tokens_int. cbn.
  rewrite Z.gtb_ltb, negb_true_iff, Z.ltb_ge. reflexivity.
Qed.

Lemma truncate_short x :
  token_count tk x <= max_sequence_length self -> truncate self x = x.
Proof.
  intros H. unfold truncate. rewrite has_tokenizer. cbn.
  apply Z.leb_le in H. unfold token_count in H. now rewrite H.
Qed.

(** When re-encoding a decoded token sequence never yields more tokens
    than it had, a text counts at most [max_sequence_length] tokens
    after the truncation step. *)
Lemma truncate_bounded x :
  0 <= max_sequence_length self ->
  (forall ts, (List.length (encode tk (decode tk ts)) <= List.length ts)%nat) ->
  token_count tk (truncate self x) <= max_sequence_length self.
Proof.
  intros Hpos Hdec. unfold truncate. rewrite has_tokenizer. cbn.
  destruct (_ <=? _) eqn:E.
  - now apply Z.leb_le in E.
  - unfold token_count.
    specialize (Hdec (Py.slice_to (encode tk x) (max_sequence_length self))).
    unfold Py.slice_to in *. apply Z.leb_le in Hpos as Hpos'.
    rewrite Hpos' in *. rewrite length_take in Hdec. lia.
Qed.

End PackerWithTokenizer.

(** C1, as amended: with a tokenizer, at least one item allowed per
    batch, [max_sequence_length <= max_total_tokens] and every text
    counting at most [max_sequence_length] tokens after the truncation
    step, every batch has at most [max_batch_size] items and at most
    [max_total_tokens] tokens in total. *)
Theorem batches_within_limits (self : service) (tk : Tokenizer)
    (texts : list string) (b : list string) :
  tokenizer self = Some tk ->
  1 <= max_batch_size self ->
  max_sequence_length self <= max_total_tokens self ->
  (forall t, In t texts ->
     token_count tk (truncate self t) <= max_sequence_length self) ->
  In b (batches_of self texts) ->
  Z.of_nat (List.length b) <= max_batch_size self /\
  token_sum tk b <= max_total_tokens self.
Proof.
  intros Htk Hsize Hseq Hcount Hb. unfold batches_of in Hb.
  pose proof (create_batches_ok self (valid_texts_of self texts)) as Hok.
  rewrite List.Forall_forall in Hok. destruct (Hok b Hb) as (_ & Hlen & Htok).
  split; [exact (Hlen Hsize)|].
  destruct Htok as [Htok | [x ->]].
  - now apply (within_budget_int self tk Htk).
  - assert (Hx : In x (valid_texts_of self texts)).
    { rewrite <- (create_batches_concat self (valid_texts_of self texts)).
      apply in_concat. exists [x]. split; [exact Hb | now left]. }
    unfold valid_texts_of in Hx. apply in_map_iff in Hx as (t & <- & Ht).
    specialize (Hcount t Ht). unfold token_sum. cbn. lia.
Qed.

(** Five texts of 6, 2, 1, 1 and 1 characters, at most 2 items and 4
    tokens per batch, 3 tokens per text: the batches are ["abc"],
    ["ab"; "c"] and ["d"; "e"]; the second one is looked at. *)
Lemma batches_within_limits_witness :
  Z.of_nat (List.length ["ab"; "c"])
  <= max_batch_size (Instances.small_service (Some Instances.char_tokenizer)) /\
  token_sum Instances.char_tokenizer ["ab"; "c"]
  <= max_total_tokens (Instances.small_service (Some Instances.char_tokenizer)).
Proof.
  apply (batches_within_limits
           (Instances.small_service (Some Instances.char_tokenizer))
           Instances.char_tokenizer ["abcdef"; "ab"; "c"; "d"; "e"]).
  - reflexivity.
  - cbn; lia.
  - cbn; lia.
  - intros t Ht. cbn in Ht.
    repeat (destruct Ht as [<- | Ht]; [vm_compute; discriminate |]).
    destruct Ht.
  - vm_compute. right. left. reflexivity.
Defined.

(** C1, as stated, fails without a tokenizer: with at most 4 tokens
    per batch and 3 per text, the four words of ["a b c d"] are
    estimated at 5.2 tokens, the text is not truncated, and it forms a
    batch above [max_total_tokens]. *)
Lemma stated_batch_limits_counterexample :
  ~ stated_batch_limits (Instances.small_service None) ["a b c d"].
Proof.
  intros H.
  specialize (H ltac:(cbn; lia) ["a b c d"]).
  change (batches_of _ _) with
    (create_batches (Instances.small_service None) ["a b c d"]) in H.
  rewrite create_batches_single in H.
  destruct (H (or_introl eq_refl)) as [[_ Hle] | (x & Hx & Hle)].
  - vm_compute in Hle. discriminate.
  - injection Hx as <-. vm_compute in Hle. discriminate.
Qed.

(** With [max_batch_size = 0] every batch is a single item, one more
    than the limit: the item limit needs [1 <= max_batch_size]. *)
Example zero_batch_size_example :
  batches_of
    {| embed_model := "codestral-embed"; max_batch_size := 0;
       max_total_tokens := 4; max_sequence_length := 3;
       tokenizer := Some Instances.char_tokenizer |}
    ["a"; "b"]
  = [["a"]; ["b"]].
Proof. reflexivity. Qed.

(** Scenario A of the specification: three items of 5 tokens with room
    for 12 per batch go into batches of 2 and 1. *)
Example scenario_a :
  batches_of
    {| embed_model := "codestral-embed"; max_batch_size := 10;
       max_total_tokens := 12; max_sequence_length := 8;
       tokenizer := Some Instances.char_tokenizer |}
    ["aaaaa"; "bbbbb"; "ccccc"]
  = [["aaaaa"; "bbbbb"]; ["ccccc"]].
Proof. reflexivity. Qed.

(** Scenario B of the specification, in small: one item of 20 tokens
    with 8 tokens allowed per text is cut to 8 tokens and forms a batch
    of its own. *)
Example scenario_b :
  batches_of
    {| embed_model := "codestral-embed"; max_batch_size := 10;
       max_total_tokens := 12; max_sequence_length := 8;
       tokenizer := Some Instances.char_tokenizer |}
    ["aaaaaaaaaaaaaaaaaaaa"]
  = [["aaaaaaaa"]].
Proof. reflexivity. Qed.

(** C2: the batches, put end to end, are the packer's input: the same
    items in the same order, each one whole and once; from the texts
    as given to [_get_embeddings_batch], they are the texts after the
    truncation step, one for one. *)
Theorem batches_concat_is_input (self : service) (texts : list string) :
  concat (create_batches self texts) = texts /\
  concat (batches_of self texts) = List.map (truncate self) texts.
Proof.
  split; [apply create_batches_concat|].
  unfold batches_of. apply create_batches_concat.
Qed.

Lemma truncate_cut_count (self : service) (tk : Tokenizer) (text : string) :
  tokenizer self = Some tk ->
  0 <= max_sequence_length self ->
  (forall ts, List.length (encode tk (decode tk ts)) = List.length ts) ->
  max_sequence_length self < token_count tk text ->
  token_count tk (truncate self text) = max_sequence_length self.
Proof.
  intros Htk Hpos Hdec Hlong. unfold truncate. rewrite Htk. cbn [Py.le].
  unfold token_count in *.
  destruct (_ <=? _) eqn:E; [apply Z.leb_le in E; lia|].
  rewrite Hdec. unfold Py.slice_to. apply Z.leb_le in Hpos as Hpos'.
  rewrite Hpos', length_take. lia.
Qed.

Lemma char_tokenizer_length ts :
  List.length
    (encode Instances.char_tokenizer (decode Instances.char_tokenizer ts))
  = List.length ts.
Proof.
  cbn [encode decode Instances.char_tokenizer].
  now rewrite list_ascii_of_string_of_list_ascii, !List.length_map.
Qed.

(** C5, as amended: the truncation step gives back as it is every
    text that counts at most [max_sequence_length] tokens.  When the
    limit is not negative and re-encoding a decoded token sequence
    never gives more tokens than the sequence had, the output of a
    truncation is such a text, so truncating it again changes nothing;
    when re-encoding keeps the number of tokens, the output of a cut
    counts exactly [max_sequence_length] tokens. *)
Theorem truncate_idempotent (self : service) (tk : Tokenizer) (text : string) :
  tokenizer self = Some tk ->
  (token_count tk text <= max_sequence_length self ->
   truncate self text = text) /\
  (0 <= max_sequence_length self ->
   (forall ts,
      (List.length (encode tk (decode tk ts)) <= List.length ts)%nat) ->
   token_count tk (truncate self text) <= max_sequence_length self /\
   truncate self (truncate self text) = truncate self text) /\
  (0 <= max_sequence_length self ->
   (forall ts, List.length (encode tk (decode tk ts)) = List.length ts) ->
   max_sequence_length self < token_count tk text ->
   token_count tk (truncate self text) = max_sequence_length self).
Proof.
  intros Htk. split; [|split].
  - apply (truncate_short self tk Htk).
  - intros Hpos Hdec.
    pose proof (truncate_bounded self tk Htk text Hpos Hdec) as Hb.
    split; [exact Hb|]. now apply (truncate_short self tk Htk).
  - now apply truncate_cut_count.
Qed.

(** The six characters of "abcdef" are cut to three, which count three
    tokens; cutting them again changes nothing. *)
Lemma truncate_idempotent_witness :
  truncate (Instances.small_service (Some Instances.char_tokenizer))
    (truncate (Instances.small_service (Some Instances.char_tokenizer)) "abcdef")
  = truncate (Instances.small_service (Some Instances.char_tokenizer)) "abcdef"
  /\
  token_count Instances.char_tokenizer
    (truncate (Instances.small_service (Some Instances.char_tokenizer)) "abcdef")
  = max_sequence_length
      (Instances.small_service (Some Instances.char_tokenizer)).
Proof.
  destruct (truncate_idempotent
              (Instances.small_service (Some Instances.char_tokenizer))
              Instances.char_tokenizer "abcdef" eq_refl) as (_ & HB & HC).
  split.
  - apply HB; [cbn; lia|]. intros ts. rewrite char_tokenizer_length. lia.
  - apply HC; [cbn; lia | apply char_tokenizer_length | reflexivity].
Defined.

(** C5, as stated, fails: with a tokenizer whose [decode] puts a space
    in front, the six characters of "abcdef" are cut to " abc", which
    counts four tokens for a limit of three, and cutting that again
    gives "  ab". *)
Lemma stated_truncate_idempotent_counterexample :
  ~ stated_truncate_idempotent
      (Instances.small_service (Some Fixtures.padding_tokenizer))
      Fixtures.padding_tokenizer.
Proof.
  intros H. destruct (H "abcdef" eq_refl) as [_ H2].
  vm_compute in H2. discriminate.
Qed.

Example padding_tokenizer_cuts_twice :
  truncate (Instances.small_service (Some Fixtures.padding_tokenizer))
    "abcdef" = " abc" /\
  truncate (Instances.small_service (Some Fixtures.padding_tokenizer))
    " abc" = "  ab".
Proof. split; reflexivity. Qed.

Example truncate_cuts :
  truncate (Instances.small_service (Some Instances.char_tokenizer)) "abcdef"
  = "abc".
Proof. reflexivity. Qed.

(** ** The word-count estimate *)

Lemma shr_1_nonneg mrs : 0 <= shr_m mrs -> 0 <= shr_m (shr_1 mrs).
Proof. destruct mrs as [[|[p|p|]|p] r s]; cbn; lia. Qed.

Lemma iter_shr_1_nonneg p : forall mrs,
  0 <= shr_m mrs -> 0 <= shr_m (SpecFloat.iter_pos shr_1 p mrs).
Proof.
  induction p as [p IH|p IH|]; intros mrs H; cbn.
  - apply IH, IH, shr_1_nonneg, H.
  - apply IH, IH, H.
  - apply shr_1_nonneg, H.
Qed.

Lemma shr_fexp_nonneg m e l :
  0 <= m -> 0 <= shr_m (fst (shr_fexp prec emax m e l)).
Proof.
  intros H. unfold shr_fexp, shr.
  assert (H0 : 0 <= shr_m (shr_record_of_loc m l))
    by (destruct l as [|[]]; exact H).
  destruct (_ - e); cbn [fst]; auto using iter_shr_1_nonneg.
Qed.

Lemma round_nearest_even_nonneg m l : 0 <= m -> 0 <= round_nearest_even m l.
Proof.
  intros H. destruct l as [|[]]; cbn; try lia. destruct (Z.even m); lia.
Qed.

(** Rounding a mantissa that is not negative, with a positive sign,
    gives a number that is not negative. *)
Lemma binary_round_aux_nonneg mx ex lx :
  0 <= mx -> sf_nonneg (binary_round_aux prec emax false mx ex lx).
Proof.
  intros H. unfold binary_round_aux.
  pose proof (shr_fexp_nonneg mx ex lx H) as H1.
  destruct (shr_fexp prec emax mx ex lx) as [mrs' e']. cbn [fst] in H1.
  pose proof (shr_fexp_nonneg _ e' loc_Exact
                (round_nearest_even_nonneg _ (loc_of_shr_record mrs') H1))
    as H2.
  destruct (shr_fexp prec emax _ e' loc_Exact) as [mrs'' e''].
  cbn [fst] in H2.
  destruct (shr_m mrs''); [exact I | | lia].
  destruct (_ <=? _); reflexivity.
Qed.

Lemma of_uint63_nonneg i : sf_nonneg (Prim2SF (PrimFloat.of_uint63 i)).
Proof.
  rewrite of_uint63_spec. unfold binary_normalize.
  pose proof (Uint63.to_Z_bounded i) as [Hi _].
  destruct (Uint63.to_Z i) as [|p|p]; [exact I | | lia].
  unfold binary_round. destruct (shl_align _ _ _) as [mz ez].
  apply binary_round_aux_nonneg. lia.
Qed.

Lemma mul_nonneg f g :
  sf_nonneg (Prim2SF f) ->
  (exists m e, Prim2SF g = S754_finite false m e) ->
  sf_nonneg (Prim2SF (f * g)%float).
Proof.
  intros Hf (m & e & Hg). rewrite mul_spec, Hg. unfold SF64mul, SFmul.
  destruct (Prim2SF f) as [s|s| |s mf ef]; cbn in Hf |- *; subst; auto.
  apply binary_round_aux_nonneg. lia.
Qed.

Lemma compare_zero_nonneg f :
  sf_nonneg (Prim2SF f) ->
  Py.float_compare_Z f 0 = Some Eq \/ Py.float_compare_Z f 0 = Some Gt.
Proof.
  unfold Py.float_compare_Z.
  destruct (Prim2SF f) as [s|s| |s m e]; cbn; intros H.
  - now left.
  - subst. now right.
  - destruct H.
  - subst. right. f_equal. destruct (0 <=? e) eqn:E; [|reflexivity].
    apply Z.leb_le in E. apply Z.compare_gt_iff.
    apply Z.mul_pos_pos; [lia | now apply Z.pow_pos_nonneg].
Qed.

(** [0 <= n * 1.3] in binary64, for every length [n]. *)
Lemma estimate_nonneg (n : nat) :
  Py.le (Py.Int 0)
        (Py.mul (Py.Int (Z.of_nat n)) (Py.Float estimate_factor)) = true.
Proof.
  cbn [Py.mul Py.to_float Py.le]. unfold Py.float_of_Z.
  assert (E : (0 <=? Z.of_nat n) = true) by (apply Z.leb_le; lia). rewrite E.
  destruct (compare_zero_nonneg
              (PrimFloat.of_uint63 (Uint63.of_Z (Z.of_nat n))
               * estimate_factor)%float) as [H|H].
  - apply mul_nonneg; [apply of_uint63_nonneg|].
    eexists _, _. vm_compute. reflexivity.
  - now rewrite H.
  - now rewrite H.
Qed.

(** C6, as stated, fails: one word is estimated at 1.3 tokens, not at
    [ceil(1.3) = 2]. *)
Lemma stated_token_estimate_counterexample :
  ~ stated_token_estimate (Instances.small_service None) "a".
Proof.
  intros H. destruct (H eq_refl) as [_ H2]. vm_compute in H2. discriminate.
Qed.

(** C6, as amended: without a tokenizer the count is the binary64
    product of the word count and 1.3, not rounded up to an integer; it
    is a number that is never negative, and it is 0 for the empty
    string. *)
Theorem token_estimate_unrounded (self : service) (text : string) :
  tokenizer self = None ->
  text_token_count self text
  = Py.Float (Py.float_of_Z (word_count text) * estimate_factor) /\
  Py.le (Py.Int 0) (text_token_count self text) = true /\
  text_token_count self "" = Py.Float 0.
Proof.
  intros Hnone. unfold text_token_count. rewrite Hnone.
  split; [reflexivity|]. split; [apply estimate_nonneg | reflexivity].
Qed.

Lemma token_estimate_unrounded_witness :
  text_token_count (Instances.small_service None) "a b c"
  = Py.Float (Py.float_of_Z (word_count "a b c") * estimate_factor) /\
  Py.le (Py.Int 0) (text_token_count (Instances.small_service None) "a b c")
  = true /\
  text_token_count (Instances.small_service None) "" = Py.Float 0.
Proof.
  apply (token_estimate_unrounded (Instances.small_service None) "a b c").
  reflexivity.
Defined.

(** The estimate for three words is the binary64 value printed as
    3.9000000000000004; it lies strictly between 3 and 4. *)
Example token_estimate_three_words :
  text_token_count (Instances.small_service None) "a b c"
  = Py.Float 0x1.f333333333334p+1 /\
  Py.gt (text_token_count (Instances.small_service None) "a b c") (Py.Int 3)
  = true /\
  Py.gt (Py.Int 4) (text_token_count (Instances.small_service None) "a b c")
  = true.
Proof. vm_compute. repeat split. Qed.


(** ** Sums of estimates *)

Section FloatSums.






















End FloatSums.

Section PackerWithoutTokenizer.

Variable self : service.
Hypothesis no_tokenizer : tokenizer self = None.













End PackerWithoutTokenizer.

(** ** The batch runner *)

Section Runner.

Variable PState : Type.
Variable embeddings_create :
  PState -> string -> list string -> PState * option (list embedding).
Variable self : service.

Lemma submitted_app tr1 tr2 :
  submitted (tr1 ++ tr2) = submitted tr1 ++ submitted tr2.
Proof. unfold submitted. apply flat_map_app. Qed.

Lemma sleeps_app tr1 tr2 : sleeps (tr1 ++ tr2) = (sleeps tr1 + sleeps tr2)%nat.
Proof. unfold sleeps. now rewrite List.filter_app, List.length_app. Qed.

(** A run that meets a failing batch: nothing is returned, and the
    batches submitted are those up to the failing one. *)
Lemma process_failure bs : forall (w : world PState) acc k,
  first_failure embeddings_create self bs (provider w) = Some k ->
  snd (process_batches embeddings_create self bs w acc) = [] /\
  submitted (trace (fst (process_batches embeddings_create self bs w acc)))
  = submitted (trace w) ++ firstn (S k) bs /\
  sleeps (trace (fst (process_batches embeddings_create self bs w acc)))
  = (sleeps (trace w) + k)%nat.
Proof.
  induction bs as [|b bs IH]; intros w acc k Hk; cbn in Hk; [discriminate|].
  cbn [process_batches].
  destruct (embeddings_create (provider w) (embed_model self) b) as [p [r|]].
  - destruct (first_failure embeddings_create self bs p) as [k'|] eqn:Hk';
      cbn in Hk; [|discriminate].
    injection Hk as <-.
    edestruct (IH (emit {| provider := p;
                           trace := trace w ++ [Submit (embed_model self) b] |}
                     (Sleep 4)) (acc ++ r) k') as (H1 & H2 & H3);
      [exact Hk'|].
    rewrite H1, H2, H3. cbn [emit trace provider].
    rewrite !submitted_app, !sleeps_app. cbn.
    rewrite !app_nil_r, <- app_assoc. repeat split; lia.
  - injection Hk as <-. cbn [fst snd trace].
    rewrite submitted_app, sleeps_app. cbn. repeat split; lia.
Qed.

(** A run in which every batch succeeds: all batches are submitted,
    and each one is followed by a sleep. *)
Lemma process_success bs : forall (w : world PState) acc,
  first_failure embeddings_create self bs (provider w) = None ->
  submitted (trace (fst (process_batches embeddings_create self bs w acc)))
  = submitted (trace w) ++ bs /\
  sleeps (trace (fst (process_batches embeddings_create self bs w acc)))
  = (sleeps (trace w) + List.length bs)%nat.
Proof.
  induction bs as [|b bs IH]; intros w acc Hk; cbn in Hk |- *.
  - rewrite app_nil_r. split; [reflexivity | lia].
  - destruct (embeddings_create (provider w) (embed_model self) b)
      as [p [r|]]; [|discriminate].
    destruct (first_failure embeddings_create self bs p) as [k'|] eqn:Hk';
      [discriminate|].
    edestruct (IH (emit {| provider := p;
                           trace := trace w ++ [Submit (embed_model self) b] |}
                     (Sleep 4)) (acc ++ r)) as (H2 & H3); [exact Hk'|].
    rewrite H2, H3. cbn [emit trace provider].
    rewrite !submitted_app, !sleeps_app. cbn.
    rewrite !app_nil_r, <- app_assoc. split; [reflexivity | lia].
Qed.

(** Whatever the provider does, it is sent the batches in order, up to
    some point. *)
Lemma process_submits_prefix bs (w : world PState) acc :
  exists k,
    submitted (trace (fst (process_batches embeddings_create self bs w acc)))
    = submitted (trace w) ++ firstn k bs.
Proof.
  destruct (first_failure embeddings_create self bs (provider w)) as [k|] eqn:E.
  - exists (S k). now destruct (process_failure bs w acc k E) as (_ & H & _).
  - exists (List.length bs). rewrite firstn_all.
    now destruct (process_success bs w acc E).
Qed.

Lemma get_embeddings_unfold (w : world PState) texts :
  _get_embeddings_batch embeddings_create self w texts
  = process_batches embeddings_create self (batches_of self texts) w [].
Proof.
  unfold _get_embeddings_batch, batches_of.
  destruct texts as [|t texts]; reflexivity.
Qed.

End Runner.

(** C3: when the provider raises on a batch, [_get_embeddings_batch]
    returns the empty list, [run] fails and keeps nothing, and the
    batches submitted are those up to the failing one: no later batch
    reaches the provider. *)
Theorem provider_failure_aborts_run (PState : Type)
    (embeddings_create :
       PState -> string -> list string -> PState * option (list embedding))
    (self : service) (w : world PState)
    (chunks : Py.dict (Py.dict string)) (k : nat) :
  first_failure embeddings_create self
    (batches_of self (texts_to_embed chunks)) (provider w) = Some k ->
  snd (_get_embeddings_batch embeddings_create self w (texts_to_embed chunks))
  = [] /\
  snd (run embeddings_create self w chunks) = None /\
  submitted (trace (fst (run embeddings_create self w chunks)))
  = submitted (trace w)
    ++ firstn (S k) (batches_of self (texts_to_embed chunks)).
Proof.
  intros Hk.
  destruct (process_failure PState embeddings_create self _ w [] k Hk)
    as (H1 & H2 & _).
  rewrite <- get_embeddings_unfold in H1, H2.
  split; [exact H1|].
  destruct chunks as [|c chunks]; [discriminate Hk|].
  unfold run.
  destruct (_get_embeddings_batch embeddings_create self w
              (texts_to_embed (c :: chunks))) as [w' embs].
  cbn [fst snd] in *. subst embs. cbn. split; [reflexivity | exact H2].
Qed.

(** Scenario D of the specification: three batches, the provider
    raises on the second; the first two are submitted, the third is
    not, and the run fails. *)
Lemma provider_failure_aborts_run_witness :
  snd (_get_embeddings_batch (Instances.flaky_create 1)
         (Instances.small_service (Some Instances.char_tokenizer))
         Instances.fresh_world (texts_to_embed Instances.three_chunks)) = [] /\
  snd (run (Instances.flaky_create 1)
         (Instances.small_service (Some Instances.char_tokenizer))
         Instances.fresh_world Instances.three_chunks) = None /\
  submitted (trace (fst (run (Instances.flaky_create 1)
         (Instances.small_service (Some Instances.char_tokenizer))
         Instances.fresh_world Instances.three_chunks)))
  = [["abc"]; ["def"]].
Proof.
  apply (provider_failure_aborts_run nat (Instances.flaky_create 1)
           (Instances.small_service (Some Instances.char_tokenizer))
           Instances.fresh_world Instances.three_chunks 1).
  reflexivity.
Defined.

Example three_chunks_batches :
  batches_of (Instances.small_service (Some Instances.char_tokenizer))
    (texts_to_embed Instances.three_chunks)
  = [["abc"]; ["def"]; ["ghi"]].
Proof. reflexivity. Qed.

(** C7: in a run whose batches all succeed, a sleep follows every
    batch, the last one included: [n] batches make [n] sleeps, not
    [n - 1]. *)
Theorem sleep_follows_every_batch (PState : Type)
    (embeddings_create :
       PState -> string -> list string -> PState * option (list embedding))
    (self : service) (w : world PState) (texts : list string) :
  first_failure embeddings_create self (batches_of self texts) (provider w)
  = None ->
  sleeps (trace (fst (_get_embeddings_batch embeddings_create self w texts)))
  = (sleeps (trace w) + List.length (batches_of self texts))%nat.
Proof.
  intros Hk. rewrite get_embeddings_unfold.
  now destruct (process_success PState embeddings_create self _ w [] Hk).
Qed.

(** One text, one batch, one sleep. *)
Lemma sleep_follows_every_batch_witness :
  sleeps (trace (fst (_get_embeddings_batch (Instances.flaky_create 7)
         (Instances.small_service (Some Instances.char_tokenizer))
         Instances.fresh_world ["a"])))
  = 1%nat.
Proof.
  apply (sleep_follows_every_batch nat (Instances.flaky_create 7)
           (Instances.small_service (Some Instances.char_tokenizer))
           Instances.fresh_world ["a"]).
  reflexivity.
Defined.

(** The run of a single batch: the request, then the sleep. *)
Example single_batch_run :
  _get_embeddings_batch (Instances.flaky_create 7)
    (Instances.small_service (Some Instances.char_tokenizer))
    Instances.fresh_world ["a"]
  = ({| provider := 1%nat;
        trace := [Submit "codestral-embed" ["a"]; Sleep 4] |},
     [[PrimFloat.zero]]).
Proof. reflexivity. Qed.

(** The pacing of the specification does not hold on that run. *)
Example stated_pacing_fails_on_single_batch :
  ~ stated_pacing (Instances.flaky_create 7)
      (Instances.small_service (Some Instances.char_tokenizer))
      Instances.fresh_world ["a"].
Proof. intros H. specialize (H eq_refl). vm_compute in H. discriminate. Qed.



(** Without a tokenizer, a text estimated above both
    [max_sequence_length] and [max_total_tokens] is packed as it is, in
    a batch of its own, between its neighbours, and is sent so. *)
Example no_tokenizer_oversized_batch :
  batches_of (Instances.small_service None) ["x"; "a b c d"; "y"]
  = [["x"]; ["a b c d"]; ["y"]] /\
  Py.gt (text_token_count (Instances.small_service None) "a b c d")
        (Py.Int (max_sequence_length (Instances.small_service None))) = true /\
  Py.gt (batch_tokens (Instances.small_service None) ["a b c d"])
        (Py.Int (max_total_tokens (Instances.small_service None))) = true /\
  submitted (trace (fst (_get_embeddings_batch (Instances.flaky_create 7)
                           (Instances.small_service None)
                           Instances.fresh_world ["x"; "a b c d"; "y"])))
  = [["x"]; ["a b c d"]; ["y"]].
Proof. vm_compute. repeat split. Qed.

(** ** Chunk identifiers *)

Section ChunkIds.

Import CodePreprocessor.

Local Arguments String.append !s1 s2 : simpl nomatch.

Lemma append_empty_r s : (s ++ "")%string = s.
Proof. induction s; cbn; congruence. Qed.

Lemma append_assoc s1 s2 s3 :
  ((s1 ++ s2) ++ s3)%string = (s1 ++ (s2 ++ s3))%string.
Proof. induction s1; cbn; congruence. Qed.

Lemma append_length s1 s2 :
  String.length (s1 ++ s2) = (String.length s1 + String.length s2)%nat.
Proof. induction s1; cbn; congruence. Qed.

Lemma prefix_empty s : String.prefix "" s = true.
Proof. now destruct s. Qed.

Lemma prefix_append s t : String.prefix s (s ++ t) = true.
Proof.
  induction s as [|c s IH]; cbn [String.append String.prefix].
  - apply prefix_empty.
  - now destruct (ascii_dec c c).
Qed.

Lemma prefix_append_r s v t :
  String.prefix s v = true -> String.prefix s (v ++ t) = true.
Proof.
  revert v. induction s as [|c s IH]; intros v H.
  - apply prefix_empty.
  - destruct v as [|c' v]; [discriminate|].
    cbn [String.append String.prefix] in *.
    destruct (ascii_dec c c'); [now apply IH | discriminate].
Qed.

(** The first piece of [s.split(sep)] is the part of [s] before the
    first occurrence of [sep]. *)
Lemma split_from_head sep s : forall cur,
  Py.item0 (Py.split_from sep 0 cur s) = (cur ++ before sep s)%string.
Proof.
  induction s as [|c s IH]; intros cur.
  - cbn. destruct sep; cbn; now rewrite append_empty_r.
  - cbn [Py.split_from before].
    destruct (String.prefix sep (String c s)).
    + cbn. now rewrite append_empty_r.
    + rewrite IH, append_assoc. reflexivity.
Qed.

Lemma before_no_occurrence sep s :
  Py.contains sep s = false -> before sep s = s.
Proof.
  induction s as [|c s IH]; cbn [Py.contains before]; intros H;
    apply orb_false_iff in H as [H1 H2]; rewrite H1; [reflexivity|].
  now rewrite IH.
Qed.

Lemma before_prefix sep s : String.prefix sep s = true -> before sep s = "".
Proof. intros H. destruct s; cbn [before]; now rewrite H. Qed.

(** Both branches of lines 104-107 give the part before the first marker. *)
Lemma original_file_before id : original_file id = before chunk_marker id.
Proof.
  unfold original_file. destruct (Py.contains chunk_marker id) eqn:E.
  - unfold Py.split. now rewrite split_from_head.
  - now rewrite before_no_occurrence.
Qed.

Ltac compare_chars :=
  cbn [String.prefix String.append String.eqb] in *;
  repeat match goal with
    | |- context [ascii_dec ?a ?b] => destruct (ascii_dec a b); [subst|]
    | H : context [ascii_dec ?a ?b] |- _ => destruct (ascii_dec a b); [subst|]
    | H : context [Ascii.eqb ?a ?b] |- _ =>
        destruct (Ascii.eqb_spec a b); [subst|]
    end;
  try congruence.

Ltac next_char d := destruct d as [|? d]; compare_chars.

(** No occurrence of the marker starts inside a non-empty [d] that
    neither starts with the marker nor is the marker short of its last
    character. *)
Lemma no_early_marker c d t :
  String.prefix chunk_marker (String c d) = false ->
  String.eqb (String c d) open_marker = false ->
  String.prefix chunk_marker (String c d ++ chunk_marker ++ t) = false.
Proof.
  unfold chunk_marker, open_marker. intros Hp He. compare_chars.
  do 8 (next_char d). destruct d; discriminate Hp.
Qed.

Lemma before_chunk_id d t :
  Py.contains chunk_marker d = false ->
  Py.endswith d open_marker = false ->
  before chunk_marker (d ++ chunk_marker ++ t) = d.
Proof.
  induction d as [|c d IH]; intros Hc He.
  - apply before_prefix. exact (prefix_append chunk_marker t).
  - cbn [Py.contains Py.endswith] in Hc, He.
    apply orb_false_iff in Hc as [Hp Hc], He as [Hq He].
    cbn [String.append before].
    change (String c (d ++ chunk_marker ++ t))%string
      with (String c d ++ chunk_marker ++ t)%string at 1.
    rewrite (no_early_marker c d t Hp Hq), (IH Hc He). reflexivity.
Qed.

(** An occurrence of the marker bounds the part before the first one. *)
Lemma before_length_le sep u v :
  String.prefix sep v = true ->
  (String.length (before sep (u ++ v)) <= String.length u)%nat.
Proof.
  intros H. induction u as [|c u IH].
  - cbn [String.append]. rewrite (before_prefix sep v H). cbn. lia.
  - cbn [String.append before String.length].
    destruct (String.prefix sep (String c (u ++ v))); cbn [String.length];
      [lia | apply le_n_S, IH].
Qed.

Lemma contains_split sep d :
  Py.contains sep d = true ->
  exists u v, d = (u ++ v)%string /\ String.prefix sep v = true.
Proof.
  induction d as [|c d IH]; cbn [Py.contains]; intros H;
    apply orb_true_iff in H as [H|H].
  - now exists "", "".
  - discriminate.
  - now exists "", (String c d).
  - destruct (IH H) as (u & v & -> & Hv). now exists (String c u), v.
Qed.

Lemma endswith_split d x :
  Py.endswith d x = true -> exists u, d = (u ++ x)%string.
Proof.
  induction d as [|c d IH]; cbn [Py.endswith]; intros H;
    apply orb_true_iff in H as [H|H].
  - apply String.eqb_eq in H. now exists "".
  - discriminate.
  - apply String.eqb_eq in H. now exists "".
  - destruct (IH H) as (u & ->). now exists (String c u).
Qed.

(** The condition of the round trip is exact: for an identifier that
    contains the marker, or ends with the marker short of its last
    character, the part before the first marker is shorter than the
    identifier. *)
Lemma round_trip_needs_clean_id d i :
  Py.contains chunk_marker d = true \/ Py.endswith d open_marker = true ->
  original_file (chunk_id d i) <> d.
Proof.
  intros H E. rewrite original_file_before in E. unfold chunk_id in E.
  assert (Hlt : exists u v,
             d = (u ++ v)%string /\ v <> "" /\
             String.prefix chunk_marker (v ++ chunk_marker ++ Py.str_of_nat i)
             = true).
  { destruct H as [H|H].
    - destruct (contains_split _ _ H) as (u & v & -> & Hv).
      exists u, v. split; [reflexivity|].
      split; [intros ->; discriminate Hv | now apply prefix_append_r].
    - destruct (endswith_split _ _ H) as (u & ->).
      exists u, open_marker. split; [reflexivity|]. split; [discriminate|].
      unfold open_marker, chunk_marker. compare_chars; apply prefix_empty. }
  destruct Hlt as (u & v & -> & Hne & Hp).
  pose proof (before_length_le chunk_marker u _ Hp) as Hle.
  rewrite <- append_assoc, E, append_length in Hle.
  destruct v; [congruence | cbn in Hle; lia].
Qed.

(** C4, as amended: a chunk identifier is the document identifier,
    the marker and the index in decimal; for a document identifier
    that neither contains the marker nor ends with the marker short of
    its last character, the part before the first marker is the
    document identifier again. *)
Theorem chunk_id_round_trip (d : string) (i : nat) :
  Py.contains chunk_marker d = false ->
  Py.endswith d open_marker = false ->
  chunk_id d i = (d ++ "_<chunk>_" ++ Py.str_of_nat i)%string /\
  original_file (chunk_id d i) = d.
Proof.
  intros Hc He. split; [reflexivity|].
  rewrite original_file_before. unfold chunk_id. now apply before_chunk_id.
Qed.

Lemma chunk_id_round_trip_witness :
  chunk_id "src/a_chunk.py" 12
  = ("src/a_chunk.py" ++ "_<chunk>_" ++ Py.str_of_nat 12)%string /\
  original_file (chunk_id "src/a_chunk.py" 12) = "src/a_chunk.py".
Proof.
  apply (chunk_id_round_trip "src/a_chunk.py" 12); reflexivity.
Defined.

Example chunk_id_example : chunk_id "src/a_chunk.py" 12 = "src/a_chunk.py_<chunk>_12".
Proof. reflexivity. Qed.

(** C4, as stated, fails for a document identifier that contains the
    marker: the part before the first marker is only its beginning. *)
Lemma stated_id_round_trip_counterexample :
  ~ stated_id_round_trip "a_<chunk>_b.py" 0.
Proof. unfold stated_id_round_trip. vm_compute. discriminate. Qed.

(** It also fails when the identifier ends with the marker short of
    its last character: the marker is then found one place early. *)
Example round_trip_fails_on_open_marker :
  original_file (chunk_id "x_<chunk>" 0) = "x".
Proof. reflexivity. Qed.

End ChunkIds.

(** ** The chunker *)

Section ChunkerFacts.

Import CodePreprocessor.

Local Arguments String.append !s1 s2 : simpl nomatch.

Variable split_text : string -> string -> list string.

Lemma get_set_same {V} (d : Py.dict V) k v : Py.get (Py.set d k v) k = Some v.
Proof.
  induction d as [|[k' v'] d IH]; cbn.
  - now rewrite String.eqb_refl.
  - destruct (String.eqb k' k) eqn:E; cbn; now rewrite E.
Qed.

Lemma get_set_other {V} (d : Py.dict V) k k' v :
  k <> k' -> Py.get (Py.set d k v) k' = Py.get d k'.
Proof.
  intros Hne. induction d as [|[k0 v0] d IH]; cbn.
  - apply String.eqb_neq in Hne. now rewrite Hne.
  - destruct (String.eqb k0 k) eqn:E; cbn.
    + apply String.eqb_eq in E. subst k0.
      apply String.eqb_neq in Hne. now rewrite Hne.
    + now rewrite IH.
Qed.

(** Every chunk identifier contains the marker. *)
Lemma contains_chunk_id d i : Py.contains chunk_marker (chunk_id d i) = true.
Proof.
  unfold chunk_id. induction d as [|c d IH].
  - change ("" ++ ?x)%string with x.
    generalize (prefix_append chunk_marker (Py.str_of_nat i)).
    generalize (chunk_marker ++ Py.str_of_nat i)%string.
    intros s Hs. destruct s; cbn [Py.contains]; now rewrite Hs.
  - cbn [String.append Py.contains]. rewrite IH. apply orb_true_r.
Qed.

Lemma add_chunks_get_other orig_id title id chunks : forall i nc,
  Py.contains chunk_marker id = false ->
  Py.get (add_chunks nc orig_id title i chunks) id = Py.get nc id.
Proof.
  induction chunks as [|c chunks IH]; intros i nc Hid; cbn [add_chunks].
  - reflexivity.
  - rewrite IH by exact Hid. apply get_set_other.
    intros E. rewrite <- E, contains_chunk_id in Hid. discriminate.
Qed.

Lemma chunk_document_get_other nc k v id :
  k <> id -> Py.contains chunk_marker id = false ->
  Py.get (chunk_document split_text nc (k, v)) id = Py.get nc id.
Proof.
  intros Hne Hid. unfold chunk_document.
  destruct (String.eqb _ ""); [reflexivity|].
  destruct (split_text _ _) eqn:E.
  - now apply get_set_other.
  - now apply add_chunks_get_other.
Qed.

Lemma fold_chunk_document_get_other id l : forall nc,
  ~ In id (Py.keys l) -> Py.contains chunk_marker id = false ->
  Py.get (fold_left (chunk_document split_text) l nc) id = Py.get nc id.
Proof.
  induction l as [|[k v] l IH]; intros nc Hnot Hid; cbn [fold_left].
  - reflexivity.
  - cbn in Hnot. rewrite IH by tauto.
    apply chunk_document_get_other; tauto.
Qed.

(** The iteration for a document with text and no chunk stores the
    document under its own identifier. *)
Lemma chunk_document_fallback nc orig_id d :
  Py.strip (Py.get_default d "text" "") <> "" ->
  split_text (Py.strip (Py.get_default d "title" ""))
             (Py.strip (Py.get_default d "text" "")) = [] ->
  chunk_document split_text nc (orig_id, d) = Py.set nc orig_id d.
Proof.
  intros Htext Hsplit. unfold chunk_document.
  apply String.eqb_neq in Htext. now rewrite Htext, Hsplit.
Qed.

End ChunkerFacts.

(** C9, as amended: a document with text whose splitter gives no chunk
    is kept whole under its own identifier, without marker or index
    (provided the identifier does not contain the marker, so that no
    chunk identifier can take its place); the embedding stage takes
    such an identifier as the original file. *)
Theorem fallback_keeps_document
    (split_text : string -> string -> list string)
    (corpus : Py.dict CodePreprocessor.doc) (orig_id : string)
    (d : CodePreprocessor.doc) :
  List.NoDup (Py.keys corpus) ->
  In (orig_id, d) corpus ->
  Py.strip (Py.get_default d "text" "") <> "" ->
  split_text (Py.strip (Py.get_default d "title" ""))
             (Py.strip (Py.get_default d "text" "")) = [] ->
  Py.contains CodePreprocessor.chunk_marker orig_id = false ->
  Py.get (CodePreprocessor._chunk_corpus split_text corpus) orig_id = Some d /\
  original_file orig_id = orig_id.
Proof.
  intros Hnd Hin Htext Hsplit Hid. split.
  - unfold CodePreprocessor._chunk_corpus.
    generalize (@nil (string * CodePreprocessor.doc)) as nc.
    induction corpus as [|[k v] l IH]; intros nc; [destruct Hin|].
    cbn in Hnd. apply List.NoDup_cons_iff in Hnd as [Hk Hnd].
    cbn [fold_left]. destruct Hin as [E | Hin].
    + injection E as -> ->.
      rewrite fold_chunk_document_get_other by assumption.
      rewrite chunk_document_fallback by assumption. apply get_set_same.
    + now apply IH.
  - unfold original_file. now rewrite Hid.
Qed.

Lemma fallback_keeps_document_witness :
  Py.get (CodePreprocessor._chunk_corpus Instances.no_chunks
            Instances.one_file_corpus) "a.py"
  = Some [("title", "a.py"); ("text", "x = 1")] /\
  original_file "a.py" = "a.py".
Proof.
  apply (fallback_keeps_document Instances.no_chunks
           Instances.one_file_corpus "a.py").
  - repeat constructor. cbn. tauto.
  - now left.
  - discriminate.
  - reflexivity.
  - reflexivity.
Defined.

(** C9, as stated, fails: the document kept whole is not stored as
    chunk 0 of itself; its only entry is under its own identifier. *)
Lemma stated_fallback_chunk_counterexample :
  ~ stated_fallback_chunk Instances.no_chunks Instances.one_file_corpus
      "a.py" [("title", "a.py"); ("text", "x = 1")].
Proof.
  intros H. destruct H as [chunk H].
  - now left.
  - discriminate.
  - reflexivity.
  - vm_compute in H. discriminate.
Qed.

Example one_file_corpus_chunked :
  CodePreprocessor._chunk_corpus Instances.no_chunks Instances.one_file_corpus
  = [("a.py", [("title", "a.py"); ("text", "x = 1")])] /\
  CodePreprocessor._chunk_corpus Instances.one_chunk Instances.one_file_corpus
  = [("a.py_<chunk>_0", [("title", "a.py"); ("text", "x = 1")])].
Proof. split; reflexivity. Qed.

(** ** The pipeline *)

Section PipelineRun.

Import Pipeline.

Variable fetch_archive : string -> option (list path).
Variable preprocessor_run : path -> path -> gset path -> gset path * outcome.
Variable embedding_run : path -> path -> gset path -> gset path * outcome.
Variable index_repository :
  path -> string -> string -> string -> gset path -> gset path * outcome.
Variable data_dir : path.

Lemma with_parents_self p : In p (with_parents p).
Proof.
  induction p as [|c p IH]; cbn; [now left|].
  right. apply in_map, IH.
Qed.

Lemma mkdir_parents_creates tree p : p ∈ mkdir_parents tree p.
Proof.
  unfold mkdir_parents. apply elem_of_union_r, elem_of_list_to_set.
  apply list_elem_of_In, with_parents_self.
Qed.

Lemma rmtree_removes tree p q : p `prefix_of` q -> q ∉ rmtree tree p.
Proof. unfold rmtree. intros Hp Hq. apply elem_of_filter in Hq. tauto. Qed.

(** A failed download removes the target directory, which it had
    created, with all below it. *)
Lemma download_repo_failure tree repo_url target tag :
  fetch_archive (zip_url repo_url tag) = None ->
  download_repo fetch_archive tree repo_url target tag
  = (rmtree (mkdir_parents tree target) target, false).
Proof.
  intros Hf. unfold download_repo. rewrite Hf.
  destruct (decide _) as [_|Hn]; [reflexivity|].
  destruct Hn. apply mkdir_parents_creates.
Qed.

(** The loop over a list of tags in two parts. *)
Lemma process_tags_app repo_url repo_name pre l : forall st,
  process_tags fetch_archive preprocessor_run embedding_run index_repository
    data_dir repo_url repo_name (pre ++ l) st
  = (let '(st1, completed) :=
       process_tags fetch_archive preprocessor_run embedding_run
         index_repository data_dir repo_url repo_name pre st in
     if completed
     then process_tags fetch_archive preprocessor_run embedding_run
            index_repository data_dir repo_url repo_name l st1
     else (st1, false)).
Proof.
  induction pre as [|t pre IH]; intros st; cbn [app process_tags].
  - reflexivity.
  - destruct (if decide _ then _ else _) as [st1 [|]]; [|reflexivity].
    destruct (run_stages _ _ _ _ _ _ _ st1) as [st2 [|]]; [|reflexivity].
    apply IH.
Qed.

End PipelineRun.

(** C8, as amended: when the loop reaches a tag whose directory does
    not exist and whose archive cannot be fetched, the target
    directory is removed with all below it, no further stage is
    started for that tag, and [run_pipeline] returns there: the tags
    after it are not processed. *)
Theorem fetch_failure_ends_run
    (fetch_archive : string -> option (list Pipeline.path))
    (preprocessor_run embedding_run :
       Pipeline.path -> Pipeline.path -> gset Pipeline.path ->
       gset Pipeline.path * Pipeline.outcome)
    (index_repository :
       Pipeline.path -> string -> string -> string -> gset Pipeline.path ->
       gset Pipeline.path * Pipeline.outcome)
    (data_dir : Pipeline.path) (repo_url repo_name : string)
    (pre : list string) (tag : string) (rest : list string)
    (st st1 : Pipeline.state) :
  Pipeline.process_tags fetch_archive preprocessor_run embedding_run
    index_repository data_dir repo_url repo_name pre st = (st1, true) ->
  Pipeline.repo_dir data_dir repo_name tag ∉ Pipeline.fs st1 ->
  fetch_archive
    (Pipeline.zip_url repo_url
       (if String.eqb tag "latest" then None else Some tag))
  = None ->
  exists st',
    Pipeline.process_tags fetch_archive preprocessor_run embedding_run
      index_repository data_dir repo_url repo_name (pre ++ tag :: rest) st
    = (st', false) /\
    Pipeline.started st' = Pipeline.started st1 ++ [(tag, Pipeline.Fetch)] /\
    forall q, Pipeline.raw_dir data_dir repo_name tag `prefix_of` q ->
              q ∉ Pipeline.fs st'.
Proof.
  intros Hpre Hdir Hfetch. rewrite process_tags_app, Hpre.
  cbn [Pipeline.process_tags]. destruct (decide _) as [Hin|_]; [contradiction|].
  rewrite (download_repo_failure _ _ _ _ _ Hfetch).
  eexists. split; [reflexivity|]. cbn [Pipeline.fs Pipeline.started].
  split; [reflexivity|].
  intros q Hq. now apply rmtree_removes.
Qed.

Lemma fetch_failure_ends_run_witness :
  exists st',
    Pipeline.process_tags (Instances.failing_fetch "v1")
      Instances.stage_ok Instances.stage_ok Instances.index_ok
      ["data"] "https://github.com/owner/repo" "repo"
      ([] ++ "v1" :: ["v2"]) Instances.empty_state
    = (st', false) /\
    Pipeline.started st'
    = Pipeline.started Instances.empty_state ++ [("v1", Pipeline.Fetch)] /\
    forall q, Pipeline.raw_dir ["data"] "repo" "v1" `prefix_of` q ->
              q ∉ Pipeline.fs st'.
Proof.
  apply (fetch_failure_ends_run (Instances.failing_fetch "v1")
           Instances.stage_ok Instances.stage_ok Instances.index_ok
           ["data"] "https://github.com/owner/repo" "repo" [] "v1" ["v2"]
           Instances.empty_state Instances.empty_state).
  - reflexivity.
  - cbn. apply not_elem_of_empty.
  - reflexivity.
Defined.

(** C8, as stated, fails: with tags v1 and v2 and the archive of v1 out
    of reach, the fetch of v1 is the only stage that is ever started;
    v2, whose archive could be fetched, is not processed. *)
Lemma stated_fetch_failure_counterexample :
  ~ stated_fetch_failure (Instances.failing_fetch "v1")
      Instances.stage_ok Instances.stage_ok Instances.index_ok ["data"]
      "https://github.com/owner/repo" ["v1"; "v2"] Instances.empty_state.
Proof.
  intros H.
  destruct (H [] "v1" ["v2"] eq_refl) with (later := "v2") as [stg Hin].
  - vm_compute. now left.
  - reflexivity.
  - now left.
  - vm_compute in Hin. destruct Hin as [E|[]]. discriminate.
Qed.

Example two_tags_first_fails :
  Pipeline.started (Instances.pipeline_run "v1" ["v1"; "v2"])
  = [("v1", Pipeline.Fetch)].
Proof. vm_compute. reflexivity. Qed.

Example two_tags_none_fails :
  Pipeline.started (Instances.pipeline_run "v9" ["v1"; "v2"])
  = [("v1", Pipeline.Fetch); ("v1", Pipeline.Preprocess);
     ("v1", Pipeline.Embed); ("v1", Pipeline.Index);
     ("v2", Pipeline.Fetch); ("v2", Pipeline.Preprocess);
     ("v2", Pipeline.Embed); ("v2", Pipeline.Index)].
Proof. vm_compute. reflexivity. Qed.

(** * Further properties *)

Section Greedy.

Variable self : service.

Lemma chain_snoc {A} (R : A -> A -> Prop) l a b :
  chain R (l ++ [a]) -> R a b -> chain R (l ++ [a; b]).
Proof.
  induction l as [|c l IH]; intros H Hab.
  - cbn. tauto.
  - destruct l as [|d l].
    + cbn in *. tauto.
    + cbn [app chain] in *. destruct H as [H1 H2]. split; [exact H1|].
      now apply IH.
Qed.

Lemma chain_replace_last {A} (R : A -> A -> Prop) l a a' :
  (forall c, R c a -> R c a') -> chain R (l ++ [a]) -> chain R (l ++ [a']).
Proof.
  intros Hr. induction l as [|c l IH]; intros H.
  - exact I.
  - destruct l as [|d l].
    + cbn in *. split; [apply Hr; tauto | exact I].
    + cbn [app chain] in *. destruct H as [H1 H2]. split; [exact H1|].
      now apply IH.
Qed.

Lemma chain_middle {A} (R : A -> A -> Prop) pre a b post :
  chain R (pre ++ a :: b :: post) -> R a b.
Proof.
  induction pre as [|c pre IH]; intros H.
  - cbn in H. tauto.
  - apply IH. destruct pre as [|d pre]; cbn in *; tauto.
Qed.

Lemma greedy_inv_step st x : greedy_inv self st -> greedy_inv self (pack_step self st x).
Proof.
  intros (Hch & Htok & Hempty). unfold pack_step.
  destruct (_ || _) eqn:Hcond.
  - destruct (current_batch st) as [|y cb] eqn:E.
    + unfold greedy_inv, all_batches.
      cbn [batches current_batch current_batch_tokens app]. rewrite E.
      rewrite (Hempty eq_refl). cbn. rewrite Htok. repeat split; discriminate.
    + unfold greedy_inv, all_batches in *. rewrite E in Hch.
      cbn [batches current_batch current_batch_tokens app].
      split; [|split; [reflexivity | discriminate]].
      rewrite <- app_assoc. cbn [app]. apply chain_snoc; [exact Hch|].
      unfold closed_before, closed_for. rewrite <- Htok. exact Hcond.
  - unfold greedy_inv, all_batches in *.
    cbn [batches current_batch current_batch_tokens].
    split; [|split].
    + destruct (current_batch st) as [|y cb] eqn:E.
      * rewrite (Hempty eq_refl). exact I.
      * cbn [app]. revert Hch. apply chain_replace_last. intros c Hc. exact Hc.
    + rewrite Htok. symmetry. apply batch_tokens_snoc.
    + intros H. destruct (current_batch st); discriminate.
Qed.

Lemma greedy_inv_fold vts : forall st,
  greedy_inv self st -> greedy_inv self (fold_left (pack_step self) vts st).
Proof.
  induction vts as [|x vts IH]; intros st H; cbn; auto using greedy_inv_step.
Qed.

Lemma create_batches_chain vts :
  chain (closed_before self) (create_batches self vts).
Proof.
  destruct (greedy_inv_fold vts packer_init) as (H & _).
  - repeat split.
  - exact H.
Qed.

End Greedy.

(** X1: the packing is greedy: a batch is closed only when the next
    item does not fit, by the item limit or by the token budget. *)
Theorem batches_are_greedy (self : service) (valid_texts : list string)
    (pre : list (list string)) (b1 : list string) (x : string)
    (b2 : list string) (post : list (list string)) :
  create_batches self valid_texts = pre ++ b1 :: (x :: b2) :: post ->
  closed_for self b1 x = true.
Proof.
  intros E. pose proof (create_batches_chain self valid_texts) as H.
  rewrite E in H. exact (chain_middle _ _ _ _ _ H).
Qed.

Lemma batches_are_greedy_witness :
  closed_for (Instances.small_service (Some Instances.char_tokenizer))
    ["ab"; "c"] "d" = true.
Proof.
  apply (batches_are_greedy
           (Instances.small_service (Some Instances.char_tokenizer))
           ["abc"; "ab"; "c"; "d"; "e"] [["abc"]] ["ab"; "c"] "d" ["e"] []).
  reflexivity.
Defined.

Section RunnerResults.

Variable PState : Type.
Variable embeddings_create :
  PState -> string -> list string -> PState * option (list embedding).
Variable self : service.

(** When every request is answered, the result is what was there
    before followed by the answers, in the order of the batches. *)
Lemma process_answers (answer : list string -> list embedding) bs :
  forall (w : world PState) acc,
  (forall p inputs,
     snd (embeddings_create p (embed_model self) inputs) = Some (answer inputs)) ->
  snd (process_batches embeddings_create self bs w acc)
  = acc ++ List.concat (List.map answer bs).
Proof.
  induction bs as [|b bs IH]; intros w acc Hans; cbn [process_batches].
  - cbn. now rewrite app_nil_r.
  - specialize (Hans (provider w) b) as Hb.
    destruct (embeddings_create (provider w) (embed_model self) b) as [p r].
    cbn in Hb. subst r. rewrite IH by exact Hans. cbn.
    now rewrite <- app_assoc.
Qed.

(** When every request is answered with one vector of length [dim]
    per input, the result has one more such vector per text of the
    batches. *)
Lemma process_counts (dim : nat) bs : forall (w : world PState) (acc : list embedding),
  (forall p inputs, exists r,
     snd (embeddings_create p (embed_model self) inputs) = Some r /\
     List.length r = List.length inputs /\
     Forall (fun e : embedding => List.length e = dim) r) ->
  Forall (fun e : embedding => List.length e = dim) acc ->
  List.length (snd (process_batches embeddings_create self bs w acc))
  = (List.length acc + List.length (List.concat bs))%nat /\
  Forall (fun e : embedding => List.length e = dim)
    (snd (process_batches embeddings_create self bs w acc)).
Proof.
  induction bs as [|b bs IH]; intros w acc Hans Hacc; cbn [process_batches].
  - cbn. split; [lia | exact Hacc].
  - destruct (Hans (provider w) b) as (r & Hr & Hlen & Hdim).
    destruct (embeddings_create (provider w) (embed_model self) b) as [p r'].
    cbn in Hr. subst r'. cbv beta iota zeta.
    destruct (IH (emit {| provider := p;
                          trace := trace w ++ [Submit (embed_model self) b] |}
                    (Sleep 4)) (acc ++ r) Hans) as [IH1 IH2].
    + apply List.Forall_app. now split.
    + split; [|exact IH2]. rewrite IH1.
      cbn [List.concat]. rewrite !List.length_app. lia.
Qed.

Lemma chunk_to_file_fold ids id : forall (d : Py.dict string),
  (In id ids ->
   Py.get (fold_left (fun d id => Py.set d id (original_file id)) ids d) id
   = Some (original_file id)) /\
  (~ In id ids ->
   Py.get (fold_left (fun d id => Py.set d id (original_file id)) ids d) id
   = Py.get d id).
Proof.
  induction ids as [|k ids IH]; intros d; cbn [fold_left].
  - split; [intros [] | reflexivity].
  - destruct (IH (Py.set d k (original_file k))) as [IH1 IH2].
    destruct (in_dec String.string_dec id ids) as [Hi|Hn].
    + split; [intros _; now apply IH1 | intros H; destruct H; now right].
    + rewrite (IH2 Hn). destruct (String.string_dec k id) as [->|Hk].
      * split; [intros _; apply get_set_same | intros H; destruct H; now left].
      * split; [intros [H|H]; [contradiction | contradiction]|].
        intros _. now apply get_set_other.
Qed.

End RunnerResults.

(** X2: batching does not show in the result: with a provider that
    answers a request with the vector of each input, the result is
    the vector of each text after the truncation step, in the order of
    the texts. *)
Theorem batching_is_transparent (PState : Type)
    (embeddings_create :
       PState -> string -> list string -> PState * option (list embedding))
    (self : service) (w : world PState) (texts : list string)
    (embed : string -> embedding) :
  (forall p inputs,
     snd (embeddings_create p (embed_model self) inputs)
     = Some (List.map embed inputs)) ->
  snd (_get_embeddings_batch embeddings_create self w texts)
  = List.map embed (List.map (truncate self) texts).
Proof.
  intros Hans. rewrite get_embeddings_unfold.
  rewrite (process_answers PState embeddings_create self (List.map embed))
    by exact Hans.
  cbn [app]. rewrite <- List.concat_map. f_equal.
  unfold batches_of. now rewrite create_batches_concat.
Qed.

Lemma batching_is_transparent_witness :
  snd (_get_embeddings_batch Fixtures.steady_create
         (Instances.small_service (Some Instances.char_tokenizer))
         Instances.fresh_world ["abcdef"; "ab"; "c"])
  = List.map Fixtures.length_embedding
      (List.map (truncate (Instances.small_service (Some Instances.char_tokenizer)))
         ["abcdef"; "ab"; "c"]).
Proof.
  apply (batching_is_transparent nat Fixtures.steady_create
           (Instances.small_service (Some Instances.char_tokenizer))
           Instances.fresh_world ["abcdef"; "ab"; "c"] Fixtures.length_embedding).
  reflexivity.
Defined.

(** X3: with a provider that answers every request with one vector of
    [dim] numbers per input, [run] on chunks succeeds: it keeps one
    vector per chunk, all of that dimension, records the dimension,
    and lists the chunk identifiers in the order of the chunks. *)
Theorem run_succeeds (PState : Type)
    (embeddings_create :
       PState -> string -> list string -> PState * option (list embedding))
    (self : service) (w : world PState) (chunks : Py.dict (Py.dict string))
    (dim : nat) :
  chunks <> [] ->
  (forall p inputs, exists r,
     snd (embeddings_create p (embed_model self) inputs) = Some r /\
     List.length r = List.length inputs /\
     Forall (fun e : embedding => List.length e = dim) r) ->
  exists embs md,
    snd (run embeddings_create self w chunks) = Some (embs, md) /\
    List.length embs = List.length chunks /\
    Forall (fun e : embedding => List.length e = dim) embs /\
    chunk_ids md = Py.keys chunks /\
    num_chunks md = List.length chunks /\
    embedding_dimension md = dim /\
    model md = embed_model self.
Proof.
  intros Hne Hans. destruct chunks as [|c chunks]; [congruence|].
  unfold run.
  destruct (process_counts PState embeddings_create self dim
              (batches_of self (texts_to_embed (c :: chunks))) w [] Hans
              (List.Forall_nil _)) as [Hlen Hdim].
  rewrite <- get_embeddings_unfold in Hlen, Hdim.
  unfold batches_of in Hlen. rewrite create_batches_concat in Hlen.
  unfold valid_texts_of in Hlen. rewrite List.length_map in Hlen.
  assert (Htexts : List.length (texts_to_embed (c :: chunks))
                   = List.length (c :: chunks))
    by (unfold texts_to_embed; apply List.length_map).
  cbn [List.length Nat.add] in Hlen.
  destruct (_get_embeddings_batch embeddings_create self w
              (texts_to_embed (c :: chunks))) as [w' embs].
  cbn [snd] in Hlen, Hdim. rewrite Htexts in Hlen.
  destruct embs as [|e embs]; [discriminate|].
  rewrite Htexts, Hlen. cbn [orb]. rewrite Nat.eqb_refl. cbn [negb snd].
  eexists _, _. split; [reflexivity|].
  cbn [chunk_ids num_chunks embedding_dimension model List.hd].
  unfold Py.keys. rewrite List.length_map.
  apply List.Forall_cons_iff in Hdim as Hhd.
  repeat split; try assumption. apply Hhd.
Qed.

Lemma run_succeeds_witness :
  exists embs md,
    snd (run Fixtures.steady_create
           (Instances.small_service (Some Instances.char_tokenizer))
           Instances.fresh_world Instances.three_chunks) = Some (embs, md) /\
    List.length embs = List.length Instances.three_chunks /\
    Forall (fun e : embedding => List.length e = 1%nat) embs /\
    chunk_ids md = Py.keys Instances.three_chunks /\
    num_chunks md = List.length Instances.three_chunks /\
    embedding_dimension md = 1%nat /\
    model md
    = embed_model (Instances.small_service (Some Instances.char_tokenizer)).
Proof.
  apply (run_succeeds nat Fixtures.steady_create
           (Instances.small_service (Some Instances.char_tokenizer))
           Instances.fresh_world Instances.three_chunks 1).
  - discriminate.
  - intros p inputs. eexists. split; [reflexivity|]. split.
    + apply List.length_map.
    + apply List.Forall_map. apply List.Forall_forall. reflexivity.
Defined.

Lemma run_saved (PState : Type)
    (embeddings_create :
       PState -> string -> list string -> PState * option (list embedding))
    (self : service) (w : world PState) (chunks : Py.dict (Py.dict string))
    (embs : list embedding) (md : metadata) :
  snd (run embeddings_create self w chunks) = Some (embs, md) ->
  List.length embs = List.length chunks /\
  chunk_ids md = Py.keys chunks /\
  forall id, In id (Py.keys chunks) ->
    Py.get (chunk_to_file md) id = Some (original_file id).
Proof.
  unfold run. destruct chunks as [|c chunks]; [discriminate|].
  destruct (_get_embeddings_batch embeddings_create self w
              (texts_to_embed (c :: chunks))) as [w' all_embeddings].
  destruct (_ || _) eqn:Hcheck; [discriminate|].
  cbn [snd]. intros E. injection E as <- <-. cbn [chunk_ids chunk_to_file].
  apply orb_false_iff in Hcheck as [_ Hlen].
  apply negb_false_iff, Nat.eqb_eq in Hlen.
  unfold texts_to_embed in Hlen. rewrite List.length_map in Hlen.
  split; [exact Hlen|]. split; [reflexivity|].
  intros id Hid. exact (proj1 (chunk_to_file_fold _ id []) Hid).
Qed.

(** X4: whatever the provider does, a [run] that succeeds keeps
    exactly one vector per chunk, lists the chunk identifiers in the
    order of the chunks, and maps every one of them to the file that
    [original_file] reads from it. *)
Theorem run_postcondition (PState : Type)
    (embeddings_create :
       PState -> string -> list string -> PState * option (list embedding))
    (self : service) (w : world PState) (chunks : Py.dict (Py.dict string))
    (embs : list embedding) (md : metadata) :
  snd (run embeddings_create self w chunks) = Some (embs, md) ->
  List.length embs = List.length chunks /\
  chunk_ids md = Py.keys chunks /\
  forall id, In id (Py.keys chunks) ->
    Py.get (chunk_to_file md) id = Some (original_file id).
Proof.
  apply run_saved.
Qed.

Lemma run_postcondition_witness :
  List.length (fst Fixtures.three_chunks_saved)
  = List.length Instances.three_chunks /\
  chunk_ids (snd Fixtures.three_chunks_saved) = Py.keys Instances.three_chunks /\
  forall id, In id (Py.keys Instances.three_chunks) ->
    Py.get (chunk_to_file (snd Fixtures.three_chunks_saved)) id
    = Some (original_file id).
Proof.
  apply (run_postcondition nat Fixtures.steady_create
           (Instances.small_service (Some Instances.char_tokenizer))
           Instances.fresh_world Instances.three_chunks
           (fst Fixtures.three_chunks_saved) (snd Fixtures.three_chunks_saved)).
  reflexivity.
Defined.

(** X5: no batch is empty, whatever the limits are, so the provider
    is never sent an empty request and there are at most as many
    batches as texts. *)
Theorem batches_are_not_empty (self : service) (valid_texts : list string) :
  Forall (fun b => b <> []) (create_batches self valid_texts) /\
  (List.length (create_batches self valid_texts) <= List.length valid_texts)%nat.
Proof.
  assert (H : Forall (fun b : list string => b <> [])
                (create_batches self valid_texts)).
  { eapply List.Forall_impl; [|apply create_batches_ok].
    intros b Hb. apply Hb. }
  split; [exact H|].
  rewrite <- (create_batches_concat self valid_texts) at 2.
  induction H as [|b bs Hb _ IH]; cbn; [lia|].
  rewrite List.length_app. destruct b; [congruence | cbn; lia].
Qed.

Section ChunkKeys.

Import CodePreprocessor.

Local Arguments String.append !s1 s2 : simpl nomatch.

Lemma append_cancel_l s a b : (s ++ a)%string = (s ++ b)%string -> a = b.
Proof. induction s; cbn; intros H; [exact H | injection H; auto]. Qed.

Lemma to_uint_not_nil n : Nat.to_uint n <> Decimal.Nil.
Proof.
  intros H. pose proof (DecimalNat.Unsigned.of_to n) as E. rewrite H in E.
  cbn in E. subst n. discriminate.
Qed.

Lemma str_of_nat_inj i j : Py.str_of_nat i = Py.str_of_nat j -> i = j.
Proof.
  unfold Py.str_of_nat. intros H.
  apply DecimalNat.Unsigned.to_uint_inj.
  pose proof (NilZero.usu (Nat.to_uint i) (to_uint_not_nil i)) as Hi.
  pose proof (NilZero.usu (Nat.to_uint j) (to_uint_not_nil j)) as Hj.
  rewrite H in Hi. congruence.
Qed.

Lemma chunk_id_inj_index d i j : chunk_id d i = chunk_id d j -> i = j.
Proof.
  unfold chunk_id. intros H.
  apply append_cancel_l, append_cancel_l in H. now apply str_of_nat_inj.
Qed.

Lemma clean_id_spec d :
  clean_id d = true ->
  Py.contains chunk_marker d = false /\ Py.endswith d open_marker = false.
Proof.
  unfold clean_id. intros H. apply andb_true_iff in H as [H1 H2].
  now apply negb_true_iff in H1, H2.
Qed.

(** The owner of a chunk identifier of a clean document, and of the
    clean document identifier itself, is that document. *)
Lemma original_file_chunk_id d i :
  clean_id d = true -> original_file (chunk_id d i) = d.
Proof.
  intros H. apply clean_id_spec in H as [H1 H2].
  rewrite original_file_before. unfold chunk_id. now apply before_chunk_id.
Qed.

Lemma original_file_clean d : clean_id d = true -> original_file d = d.
Proof.
  intros H. apply clean_id_spec in H as [H1 _].
  unfold original_file. now rewrite H1.
Qed.

Lemma set_fresh {V} (d : Py.dict V) k v :
  ~ In k (Py.keys d) -> Py.set d k v = d ++ [(k, v)].
Proof.
  induction d as [|[k' v'] d IH]; cbn; intros H; [reflexivity|].
  destruct (String.eqb_spec k' k) as [->|Hne]; [tauto|].
  rewrite IH by tauto. reflexivity.
Qed.

Lemma keys_app {V} (d1 d2 : Py.dict V) :
  Py.keys (d1 ++ d2) = Py.keys d1 ++ Py.keys d2.
Proof. unfold Py.keys. apply List.map_app. Qed.

Lemma keys_numbered d title chunks : forall i k,
  In k (Py.keys (numbered d title i chunks)) ->
  exists j, (i <= j)%nat /\ k = chunk_id d j.
Proof.
  induction chunks as [|c chunks IH]; intros i k; cbn; [tauto|].
  intros [<-|H]; [exists i; split; [lia | reflexivity]|].
  destruct (IH _ _ H) as (j & Hj & ->). exists j. split; [lia | reflexivity].
Qed.

Lemma add_chunks_fresh d title chunks : forall i nc,
  (forall j, (i <= j)%nat -> ~ In (chunk_id d j) (Py.keys nc)) ->
  add_chunks nc d title i chunks = nc ++ numbered d title i chunks.
Proof.
  induction chunks as [|c chunks IH]; intros i nc Hfresh;
    cbn [add_chunks numbered].
  - now rewrite app_nil_r.
  - rewrite set_fresh by (apply Hfresh; lia).
    rewrite IH; [now rewrite <- app_assoc|].
    intros j Hj. rewrite keys_app, in_app_iff. cbn.
    intros [H|[H|[]]]; [exact (Hfresh j ltac:(lia) H)|].
    apply chunk_id_inj_index in H. lia.
Qed.

Lemma keys_set {V} (d : Py.dict V) k v k' :
  In k' (Py.keys (Py.set d k v)) -> k' = k \/ In k' (Py.keys d).
Proof.
  induction d as [|[k0 v0] d IH]; cbn.
  - intros [<-|[]]. now left.
  - destruct (String.eqb k0 k); cbn; intros [H|H]; auto.
    destruct (IH H); auto.
Qed.

Lemma keys_add_chunks d title chunks : forall i nc k,
  In k (Py.keys (add_chunks nc d title i chunks)) ->
  In k (Py.keys nc) \/ In k (Py.keys (numbered d title i chunks)).
Proof.
  induction chunks as [|c chunks IH]; intros i nc k; cbn [add_chunks numbered].
  - now left.
  - intros H. destruct (IH _ _ _ H) as [H1|H1]; [|right; now right].
    destruct (keys_set _ _ _ _ H1) as [->|H2]; [right; now left | now left].
Qed.

Lemma numbered_keys_nodup d title chunks : forall i,
  List.NoDup (Py.keys (numbered d title i chunks)).
Proof.
  induction chunks as [|c chunks IH]; intros i; cbn [numbered Py.keys map fst];
    constructor.
  - intros H. apply (keys_numbered d title chunks (S i)) in H as (j & Hj & E).
    apply chunk_id_inj_index in E. lia.
  - apply IH.
Qed.

Lemma get_in {V} (d : Py.dict V) k v :
  List.NoDup (Py.keys d) -> In (k, v) d -> Py.get d k = Some v.
Proof.
  induction d as [|[k0 v0] d IH]; cbn; [tauto|].
  intros Hnd. apply List.NoDup_cons_iff in Hnd as [Hk Hnd].
  intros [E|H].
  - injection E as -> ->. now rewrite String.eqb_refl.
  - destruct (String.eqb_spec k0 k) as [->|_]; [|now apply IH].
    destruct Hk. apply in_map_iff. now exists (k, v).
Qed.

Lemma numbered_nth d title chunks : forall i n c,
  nth_error chunks n = Some c ->
  In (chunk_id d (i + n), [("title", title); ("text", c)])
     (numbered d title i chunks).
Proof.
  induction chunks as [|c0 chunks IH]; intros i [|n] c; cbn; try discriminate.
  - intros E. injection E as ->. left. now rewrite Nat.add_0_r.
  - intros E. right. replace (i + S n)%nat with (S i + n)%nat by lia.
    now apply IH.
Qed.

End ChunkKeys.

Section ChunkedCorpus.

Import CodePreprocessor.

Local Arguments String.append !s1 s2 : simpl nomatch.

Variable split_text : string -> string -> list string.

(** Every key that a clean document contributes is owned by it. *)
Lemma entries_of_owner d rec k :
  clean_id d = true ->
  In k (Py.keys (entries_of split_text (d, rec))) -> original_file k = d.
Proof.
  intros Hclean. unfold entries_of. cbn [fst snd].
  destruct (String.eqb _ ""); [intros []|].
  destruct (split_text _ _) as [|c chunks].
  - cbn. intros [<-|[]]. now apply original_file_clean.
  - intros H. apply keys_numbered in H as (j & _ & ->).
    now apply original_file_chunk_id.
Qed.

(** One iteration appends the entries of its document when no key
    owned by the document is there yet. *)
Lemma chunk_document_fresh nc d rec :
  clean_id d = true ->
  (forall k, In k (Py.keys nc) -> original_file k <> d) ->
  chunk_document split_text nc (d, rec)
  = nc ++ entries_of split_text (d, rec).
Proof.
  intros Hclean Hfresh. unfold chunk_document, entries_of. cbn [fst snd].
  destruct (String.eqb _ ""); [now rewrite app_nil_r|].
  destruct (split_text _ _) as [|c chunks] eqn:E.
  - apply set_fresh. intros H. apply (Hfresh _ H).
    now apply original_file_clean.
  - apply add_chunks_fresh. intros j _ H. apply (Hfresh _ H).
    now apply original_file_chunk_id.
Qed.

Lemma fold_chunk_document_fresh corpus : forall nc,
  List.NoDup (Py.keys corpus) ->
  Forall (fun e => clean_id (fst e) = true) corpus ->
  (forall k, In k (Py.keys nc) -> ~ In (original_file k) (Py.keys corpus)) ->
  fold_left (chunk_document split_text) corpus nc
  = nc ++ flat_map (entries_of split_text) corpus.
Proof.
  induction corpus as [|[d rec] corpus IH]; intros nc Hnd Hclean Hfresh;
    cbn [fold_left flat_map].
  - now rewrite app_nil_r.
  - cbn in Hnd. apply List.NoDup_cons_iff in Hnd as [Hd Hnd].
    apply List.Forall_cons_iff in Hclean as [Hc Hclean]. cbn [fst] in Hc.
    rewrite chunk_document_fresh; [|exact Hc|].
    + rewrite IH; [now rewrite <- app_assoc | exact Hnd | exact Hclean |].
      intros k. rewrite keys_app, in_app_iff. intros [H|H].
      * intros Hin. apply (Hfresh k H). now right.
      * rewrite (entries_of_owner d rec k Hc H). exact Hd.
    + intros k H E. apply (Hfresh k H). left. now rewrite E.
Qed.

Lemma chunk_corpus_entries corpus :
  List.NoDup (Py.keys corpus) ->
  Forall (fun e => clean_id (fst e) = true) corpus ->
  _chunk_corpus split_text corpus = flat_map (entries_of split_text) corpus.
Proof.
  intros Hnd Hclean. unfold _chunk_corpus.
  now rewrite fold_chunk_document_fresh.
Qed.

End ChunkedCorpus.

(** X6: for a corpus of documents with distinct identifiers, none of
    which contains the marker or ends with the marker short of its
    last character, the chunked corpus is, document after document in
    the order of the corpus: nothing for a document without text, the
    document itself when the splitter gives no chunk, and otherwise
    its chunks in order, chunk [i] under the identifier of index [i]
    with the stripped title. *)
Theorem chunk_corpus_is_all_entries
    (split_text : string -> string -> list string)
    (corpus : Py.dict CodePreprocessor.doc) :
  List.NoDup (Py.keys corpus) ->
  Forall (fun e => clean_id (fst e) = true) corpus ->
  CodePreprocessor._chunk_corpus split_text corpus
  = flat_map (entries_of split_text) corpus.
Proof.
  apply chunk_corpus_entries.
Qed.

Lemma chunk_corpus_is_all_entries_witness :
  CodePreprocessor._chunk_corpus Fixtures.words Fixtures.two_file_corpus
  = flat_map (entries_of Fixtures.words) Fixtures.two_file_corpus.
Proof.
  apply (chunk_corpus_is_all_entries Fixtures.words Fixtures.two_file_corpus).
  - repeat constructor; cbn; intuition discriminate.
  - repeat constructor.
Defined.

Section ChunkedCorpusFacts.

Import CodePreprocessor.

Variable split_text : string -> string -> list string.

Lemma keys_chunk_document nc e k :
  In k (Py.keys (chunk_document split_text nc e)) ->
  In k (Py.keys nc) \/ In k (Py.keys (entries_of split_text e)).
Proof.
  destruct e as [d rec]. unfold chunk_document, entries_of. cbn [fst snd].
  destruct (String.eqb _ ""); [now left|].
  destruct (split_text _ _) as [|c chunks].
  - intros H. destruct (keys_set _ _ _ _ H) as [->|H2]; [right; now left | now left].
  - apply keys_add_chunks.
Qed.

Lemma keys_fold_chunk_document corpus : forall nc k,
  In k (Py.keys (fold_left (chunk_document split_text) corpus nc)) ->
  In k (Py.keys nc) \/ exists e, In e corpus /\ In k (Py.keys (entries_of split_text e)).
Proof.
  induction corpus as [|e corpus IH]; intros nc k; cbn [fold_left].
  - now left.
  - intros H. destruct (IH _ _ H) as [H1|(e' & He' & Hk)].
    + destruct (keys_chunk_document _ _ _ H1) as [H2|H2]; [now left|].
      right. exists e. split; [now left | exact H2].
    + right. exists e'. split; [now right | exact Hk].
Qed.

Lemma entries_of_nodup e : List.NoDup (Py.keys (entries_of split_text e)).
Proof.
  unfold entries_of. destruct (String.eqb _ ""); [constructor|].
  destruct (split_text _ _) as [|c chunks].
  - cbn. constructor; [intros [] | constructor].
  - apply numbered_keys_nodup.
Qed.

Lemma all_entries_owner corpus k :
  Forall (fun e => clean_id (fst e) = true) corpus ->
  In k (Py.keys (flat_map (entries_of split_text) corpus)) ->
  In (original_file k) (Py.keys corpus).
Proof.
  intros Hclean.
  induction Hclean as [|[d rec] corpus Hc _ IH]; cbn [flat_map]; [intros []|].
  rewrite keys_app, in_app_iff. intros [H|H]; [left | right; now apply IH].
  symmetry. exact (entries_of_owner split_text d rec k Hc H).
Qed.

Lemma all_entries_nodup corpus :
  List.NoDup (Py.keys corpus) ->
  Forall (fun e => clean_id (fst e) = true) corpus ->
  List.NoDup (Py.keys (flat_map (entries_of split_text) corpus)).
Proof.
  intros Hnd Hclean.
  induction Hclean as [|[d rec] corpus Hc Hclean IH]; cbn [flat_map].
  - constructor.
  - cbn in Hnd. apply List.NoDup_cons_iff in Hnd as [Hd Hnd].
    rewrite keys_app. apply List.NoDup_app; [apply entries_of_nodup | now apply IH |].
    intros k Hk Hk'. apply Hd.
    rewrite <- (entries_of_owner split_text d rec k Hc Hk).
    now apply all_entries_owner.
Qed.

Lemma chunk_document_blank nc e :
  has_text e = false -> chunk_document split_text nc e = nc.
Proof.
  destruct e as [d rec]. unfold has_text, chunk_document. cbn [snd].
  intros H. apply negb_false_iff in H. now rewrite H.
Qed.

Lemma fold_chunk_document_filter corpus : forall nc,
  fold_left (chunk_document split_text) (List.filter has_text corpus) nc
  = fold_left (chunk_document split_text) corpus nc.
Proof.
  induction corpus as [|e corpus IH]; intros nc; cbn [List.filter fold_left];
    [reflexivity|].
  destruct (has_text e) eqn:E; cbn [fold_left].
  - apply IH.
  - rewrite (chunk_document_blank nc e E). apply IH.
Qed.

Lemma chunk_corpus_owner corpus k :
  Forall (fun e => clean_id (fst e) = true) corpus ->
  In k (Py.keys (_chunk_corpus split_text corpus)) ->
  In (original_file k) (Py.keys corpus).
Proof.
  intros Hclean Hk. unfold _chunk_corpus in Hk.
  apply keys_fold_chunk_document in Hk as [[]|([d rec] & He & Hk)].
  pose proof (proj1 (List.Forall_forall _ _) Hclean _ He) as Hc.
  cbn [fst] in Hc. rewrite (entries_of_owner split_text d rec k Hc Hk).
  apply in_map_iff. now exists (d, rec).
Qed.

End ChunkedCorpusFacts.

(** X7: every chunk is found again under its identifier: for a corpus
    of distinct clean identifiers, chunk [i] of a document is stored
    under [chunk_id d i] with the document's stripped title, and no
    other entry has replaced it. *)
Theorem chunk_is_stored
    (split_text : string -> string -> list string)
    (corpus : Py.dict CodePreprocessor.doc) (d : string)
    (rec : CodePreprocessor.doc) (i : nat) (chunk_text : string) :
  List.NoDup (Py.keys corpus) ->
  Forall (fun e => clean_id (fst e) = true) corpus ->
  In (d, rec) corpus ->
  Py.strip (Py.get_default rec "text" "") <> "" ->
  nth_error (split_text (Py.strip (Py.get_default rec "title" ""))
                        (Py.strip (Py.get_default rec "text" ""))) i
  = Some chunk_text ->
  Py.get (CodePreprocessor._chunk_corpus split_text corpus)
         (CodePreprocessor.chunk_id d i)
  = Some [("title", Py.strip (Py.get_default rec "title" ""));
          ("text", chunk_text)].
Proof.
  intros Hnd Hclean Hin Htext Hnth.
  rewrite chunk_corpus_entries by assumption.
  apply get_in; [now apply all_entries_nodup|].
  apply in_flat_map. exists (d, rec). split; [exact Hin|].
  unfold entries_of. cbn [fst snd]. apply String.eqb_neq in Htext.
  rewrite Htext.
  destruct (split_text _ _) as [|c chunks] eqn:E;
    [destruct i; discriminate|].
  now apply (numbered_nth d _ (c :: chunks) 0 i).
Qed.

Lemma chunk_is_stored_witness :
  Py.get (CodePreprocessor._chunk_corpus Fixtures.words Fixtures.two_file_corpus)
         (CodePreprocessor.chunk_id "b/c.js" 1)
  = Some [("title", "b/c.js"); ("text", "y")].
Proof.
  apply (chunk_is_stored Fixtures.words Fixtures.two_file_corpus "b/c.js"
           [("title", "b/c.js"); ("text", "let y")] 1 "y").
  - repeat constructor; cbn; intuition discriminate.
  - repeat constructor.
  - cbn. tauto.
  - discriminate.
  - reflexivity.
Defined.

(** X8: documents without text leave no trace: chunking a corpus and
    chunking it without its blank documents give the same result, so
    such a document neither adds an entry nor shifts or replaces one. *)
Theorem blank_documents_are_ignored
    (split_text : string -> string -> list string)
    (corpus : Py.dict CodePreprocessor.doc) :
  CodePreprocessor._chunk_corpus split_text (List.filter has_text corpus)
  = CodePreprocessor._chunk_corpus split_text corpus.
Proof.
  unfold CodePreprocessor._chunk_corpus. apply fold_chunk_document_filter.
Qed.

(** X9: every entry of the chunked corpus belongs to a document of the
    corpus: when no document identifier contains the marker or ends
    with the marker short of its last character, the file that
    [original_file] reads from a key of the result is a key of the
    corpus.  Identifiers need not be distinct for this. *)
Theorem chunks_belong_to_corpus
    (split_text : string -> string -> list string)
    (corpus : Py.dict CodePreprocessor.doc) (k : string) :
  Forall (fun e => clean_id (fst e) = true) corpus ->
  In k (Py.keys (CodePreprocessor._chunk_corpus split_text corpus)) ->
  In (original_file k) (Py.keys corpus).
Proof.
  apply chunk_corpus_owner.
Qed.

Lemma chunks_belong_to_corpus_witness :
  In (original_file "b/c.js_<chunk>_0") (Py.keys Fixtures.two_file_corpus).
Proof.
  apply (chunks_belong_to_corpus Fixtures.words Fixtures.two_file_corpus).
  - repeat constructor.
  - vm_compute. tauto.
Defined.

(** ** Flattening a repository *)

Section Stripping.

Lemma rstrip_idempotent s : Py.rstrip (Py.rstrip s) = Py.rstrip s.
Proof.
  induction s as [|c s IH]; [reflexivity|]. cbn [Py.rstrip].
  destruct (Py.rstrip s) as [|c' r] eqn:E.
  - destruct (Py.isspace c) eqn:Hc; [reflexivity|].
    cbn [Py.rstrip]. now rewrite Hc.
  - cbn [Py.rstrip] in *. now rewrite IH.
Qed.

Lemma lstrip_head s :
  match Py.lstrip s with
  | EmptyString => True
  | String c _ => Py.isspace c = false
  end.
Proof.
  induction s as [|c s IH]; [exact I|]. cbn [Py.lstrip].
  destruct (Py.isspace c) eqn:Hc; [exact IH | exact Hc].
Qed.

Lemma rstrip_head c s :
  Py.isspace c = false -> exists r, Py.rstrip (String c s) = String c r.
Proof.
  intros Hc. cbn [Py.rstrip]. destruct (Py.rstrip s) as [|c' r].
  - rewrite Hc. now exists "".
  - now exists (String c' r).
Qed.

Lemma strip_idempotent s : Py.strip (Py.strip s) = Py.strip s.
Proof.
  unfold Py.strip. pose proof (lstrip_head s) as H.
  destruct (Py.lstrip s) as [|c t]; [reflexivity|].
  destruct (rstrip_head c t H) as [r E]. rewrite E.
  cbn [Py.lstrip]. rewrite H. rewrite <- E. apply rstrip_idempotent.
Qed.

End Stripping.

Section DictFacts.

Context {V : Type}.

Lemma set_forall (P : string * V -> Prop) (d : Py.dict V) k v :
  (forall k' v', P (k', v') -> P (k', v)) ->
  P (k, v) -> Forall P d -> Forall P (Py.set d k v).
Proof.
  intros Hrep Hkv. induction d as [|[k0 v0] d IH]; cbn; intros H.
  - now constructor.
  - apply List.Forall_cons_iff in H as [H0 H].
    destruct (String.eqb k0 k); constructor; auto. now apply (Hrep k0 v0).
Qed.

Lemma keys_set_in (d : Py.dict V) k v :
  In k (Py.keys d) -> Py.keys (Py.set d k v) = Py.keys d.
Proof.
  induction d as [|[k0 v0] d IH]; cbn; [tauto|].
  destruct (String.eqb_spec k0 k) as [->|Hne]; [reflexivity|].
  intros [H|H]; [contradiction|]. cbn. f_equal. now apply IH.
Qed.

Lemma keys_set_iff (d : Py.dict V) k v k' :
  In k' (Py.keys (Py.set d k v)) <-> k' = k \/ In k' (Py.keys d).
Proof.
  destruct (in_dec String.string_dec k (Py.keys d)) as [Hin|Hout].
  - rewrite keys_set_in by exact Hin. split; [tauto|].
    intros [->|H]; assumption.
  - rewrite set_fresh by exact Hout. rewrite keys_app, in_app_iff. cbn.
    intuition congruence.
Qed.

Lemma set_nodup (d : Py.dict V) k v :
  List.NoDup (Py.keys d) -> List.NoDup (Py.keys (Py.set d k v)).
Proof.
  intros Hnd. destruct (in_dec String.string_dec k (Py.keys d)) as [Hin|Hout].
  - now rewrite keys_set_in.
  - rewrite set_fresh, keys_app by exact Hout.
    apply List.NoDup_app; [exact Hnd | repeat constructor; intros [] |].
    cbn. intros k' H1 [<-|[]]. contradiction.
Qed.

Lemma keys_flat_map_in {A} (f : A -> Py.dict V) l a k :
  In a l -> In k (Py.keys (f a)) -> In k (Py.keys (flat_map f l)).
Proof.
  intros Ha Hk. induction l as [|b l IH]; [destruct Ha|].
  cbn [flat_map]. rewrite keys_app, in_app_iff.
  destruct Ha as [->|Ha]; [now left | right; now apply IH].
Qed.

End DictFacts.

Section Flattened.

Import CodePreprocessor Flatten.

(** What an item of the listing puts into the result, if anything. *)
Lemma flatten_entry_cases flattened e :
  (flatten_entry flattened e = flattened /\
   ~ (is_code_file e = true /\
      exists raw, read e = Some raw /\ Py.strip raw <> "")) \/
  (exists raw, is_code_file e = true /\ read e = Some raw /\
     Py.strip raw <> "" /\
     flatten_entry flattened e
     = Py.set flattened (str_path (relative_path e)) (Py.strip raw)).
Proof.
  unfold flatten_entry. destruct (is_code_file e).
  - destruct (read e) as [raw|].
    + destruct (String.eqb_spec (Py.strip raw) "") as [E|E].
      * left. split; [reflexivity|]. intros (_ & raw' & H & Hne).
        injection H as <-. contradiction.
      * right. exists raw. repeat split; auto.
    + left. split; [reflexivity|]. intros (_ & raw' & H & _). discriminate.
  - left. split; [reflexivity|]. intros (H & _). discriminate.
Qed.

Lemma flatten_entry_nodup flattened e :
  List.NoDup (Py.keys flattened) ->
  List.NoDup (Py.keys (flatten_entry flattened e)).
Proof.
  intros H. destruct (flatten_entry_cases flattened e)
    as [[-> _]|(raw & _ & _ & _ & ->)]; [exact H | now apply set_nodup].
Qed.

Lemma fold_flatten_nodup listing : forall flattened,
  List.NoDup (Py.keys flattened) ->
  List.NoDup (Py.keys (fold_left flatten_entry listing flattened)).
Proof.
  induction listing as [|e listing IH]; intros flattened H; cbn [fold_left];
    [exact H|].
  apply IH. now apply flatten_entry_nodup.
Qed.

Lemma flatten_nodup listing :
  List.NoDup (Py.keys (_flatten_repository listing)).
Proof. apply fold_flatten_nodup. constructor. Qed.

Lemma fold_flatten_stripped listing : forall flattened,
  Forall stripped_text flattened ->
  Forall stripped_text (fold_left flatten_entry listing flattened).
Proof.
  induction listing as [|e listing IH]; intros flattened H; cbn [fold_left];
    [exact H|].
  apply IH. destruct (flatten_entry_cases flattened e)
    as [[-> _]|(raw & _ & _ & Hne & ->)]; [exact H|].
  apply set_forall; [| |exact H].
  - intros k' v' _. split; [exact Hne | apply strip_idempotent].
  - split; [exact Hne | apply strip_idempotent].
Qed.

Lemma fold_flatten_keys listing : forall flattened k,
  In k (Py.keys (fold_left flatten_entry listing flattened)) <->
  In k (Py.keys flattened) \/
  exists e raw, In e listing /\ is_code_file e = true /\
    read e = Some raw /\ Py.strip raw <> "" /\
    str_path (relative_path e) = k.
Proof.
  induction listing as [|e listing IH]; intros flattened k; cbn [fold_left].
  - split; [now left|]. intros [H|(e & raw & [] & _)]. exact H.
  - rewrite IH. destruct (flatten_entry_cases flattened e)
      as [[-> Hno]|(raw & Hc & Hr & Hne & ->)].
    + split; intros [H|(e' & raw & Hin & Hc & Hr & Hne & Hk)]; auto.
      * right. exists e', raw. cbn. tauto.
      * destruct Hin as [<-|Hin].
        -- destruct Hno. split; [exact Hc|]. now exists raw.
        -- right. exists e', raw. tauto.
    + rewrite keys_set_iff.
      split; intros [H|(e' & raw' & Hin & Hc' & Hr' & Hne' & Hk)].
      * destruct H as [->|H]; [|now left].
        right. exists e, raw. cbn. tauto.
      * right. exists e', raw'. cbn. tauto.
      * now left; right.
      * destruct Hin as [<-|Hin]; [left; now left|].
        right. exists e', raw'. tauto.
Qed.

Lemma corpus_of_fold flattened : forall corpus,
  (forall k, In k (Py.keys flattened) -> ~ In k (Py.keys corpus)) ->
  List.NoDup (Py.keys flattened) ->
  fold_left
    (fun corpus kv =>
       Py.set corpus (fst kv) [("title", fst kv); ("text", snd kv)])
    flattened corpus
  = corpus
    ++ List.map (fun kv => (fst kv, [("title", fst kv); ("text", snd kv)]))
         flattened.
Proof.
  induction flattened as [|[k v] flattened IH]; intros corpus Hfresh Hnd;
    cbn [fold_left List.map].
  - now rewrite app_nil_r.
  - cbn in Hnd. apply List.NoDup_cons_iff in Hnd as [Hk Hnd]. cbn [fst snd].
    rewrite set_fresh by (apply Hfresh; now left).
    rewrite IH; [now rewrite <- app_assoc | | exact Hnd].
    intros k' Hk'. rewrite keys_app, in_app_iff. cbn.
    intros [H|[<-|[]]]; [|contradiction].
    apply (Hfresh k'); [now right | exact H].
Qed.

Lemma corpus_of_map flattened :
  List.NoDup (Py.keys flattened) ->
  corpus_of flattened
  = List.map (fun kv => (fst kv, [("title", fst kv); ("text", snd kv)]))
      flattened.
Proof.
  intros H. unfold corpus_of. rewrite corpus_of_fold; auto.
Qed.

Lemma keys_corpus_of flattened :
  List.NoDup (Py.keys flattened) ->
  Py.keys (corpus_of flattened) = Py.keys flattened.
Proof.
  intros H. rewrite corpus_of_map by exact H. unfold Py.keys.
  rewrite List.map_map. reflexivity.
Qed.

Lemma flatten_entry_item flattened e :
  ~ In (str_path (relative_path e)) (Py.keys flattened) ->
  flatten_entry flattened e = flattened ++ flattened_item e.
Proof.
  intros Hfresh. unfold flatten_entry, flattened_item.
  destruct (is_code_file e); [|now rewrite app_nil_r].
  destruct (read e) as [raw|]; [|now rewrite app_nil_r].
  destruct (String.eqb _ ""); [now rewrite app_nil_r|].
  now apply set_fresh.
Qed.

Lemma flattened_item_keys e k :
  In k (Py.keys (flattened_item e)) -> k = str_path (relative_path e).
Proof.
  unfold flattened_item. destruct (is_code_file e); [|intros []].
  destruct (read e) as [raw|]; [|intros []].
  destruct (String.eqb _ ""); [intros []|]. cbn. intuition.
Qed.

Lemma fold_flatten_items listing : forall flattened,
  List.NoDup (List.map (fun e => str_path (relative_path e)) listing) ->
  (forall e, In e listing ->
     ~ In (str_path (relative_path e)) (Py.keys flattened)) ->
  fold_left flatten_entry listing flattened
  = flattened ++ flat_map flattened_item listing.
Proof.
  induction listing as [|e listing IH]; intros flattened Hnd Hfresh;
    cbn [fold_left flat_map].
  - now rewrite app_nil_r.
  - cbn in Hnd. apply List.NoDup_cons_iff in Hnd as [He Hnd].
    rewrite flatten_entry_item by (apply Hfresh; now left).
    rewrite IH; [now rewrite <- app_assoc | exact Hnd |].
    intros e' He'. rewrite keys_app, in_app_iff. intros [H|H].
    + apply (Hfresh e'); [now right | exact H].
    + apply flattened_item_keys in H. apply He. rewrite <- H.
      apply in_map_iff. now exists e'.
Qed.

Lemma entries_of_flattened split_text k v :
  stripped_text (k, v) ->
  exists id,
    In id (Py.keys (entries_of split_text
                      (k, [("title", k); ("text", v)]))).
Proof.
  intros [Hne Hv]. cbn [snd] in *. unfold entries_of. cbn [fst snd].
  change (Py.get_default [("title", k); ("text", v)] "text" "") with v.
  rewrite Hv. apply String.eqb_neq in Hne. rewrite Hne.
  destruct (split_text _ _) as [|c chunks].
  - exists k. now left.
  - exists (chunk_id k 0). now left.
Qed.

Lemma run_covers split_text listing k :
  Forall (fun k => clean_id k = true)
    (Py.keys (_flatten_repository listing)) ->
  In k (Py.keys (fst (run split_text listing))) <->
  exists id,
    In id (Py.keys (snd (run split_text listing))) /\ original_file id = k.
Proof.
  intros Hclean. unfold run. cbn [fst snd].
  pose proof (flatten_nodup listing) as Hnd.
  pose proof (fold_flatten_stripped listing [] (List.Forall_nil _)) as Hs.
  fold (_flatten_repository listing) in Hs.
  set (flattened := _flatten_repository listing) in *.
  assert (Hc : Forall (fun e : string * doc => clean_id (fst e) = true)
                 (corpus_of flattened)).
  { rewrite corpus_of_map by exact Hnd. apply List.Forall_map.
    cbn [fst]. unfold Py.keys in Hclean.
    now apply List.Forall_map in Hclean. }
  split.
  - intros Hk. apply in_map_iff in Hk as ([k' v] & <- & Hin). cbn [fst].
    pose proof (proj1 (List.Forall_forall _ _) Hs _ Hin) as Hkv.
    destruct (entries_of_flattened split_text k' v Hkv) as [id Hid].
    exists id. split.
    + rewrite chunk_corpus_entries;
        [|now rewrite keys_corpus_of | exact Hc].
      apply (keys_flat_map_in _ _ (k', [("title", k'); ("text", v)]));
        [|exact Hid].
      rewrite corpus_of_map by exact Hnd. apply in_map_iff.
      now exists (k', v).
    + apply (entries_of_owner split_text k' [("title", k'); ("text", v)] id);
        [|exact Hid].
      pose proof (proj1 (List.Forall_forall _ _) Hclean k') as H.
      apply H. apply in_map_iff. now exists (k', v).
  - intros (id & Hid & <-).
    rewrite <- (keys_corpus_of flattened Hnd).
    now apply (chunk_corpus_owner split_text).
Qed.

End Flattened.

(** X10: what is kept of a repository is ready for the chunker: every
    flattened file has a content that is not empty and carries no
    whitespace around it, whatever the files of the repository hold. *)
Theorem flattened_files_are_stripped (listing : list Flatten.entry) :
  Forall Flatten.stripped_text (Flatten._flatten_repository listing).
Proof.
  apply fold_flatten_stripped. constructor.
Qed.

(** X11: when the traversal yields every path once, the flattened
    repository holds, in the order of the traversal, exactly the
    readable files with a code extension and no skip pattern in their
    name whose content is not blank, each under its relative path with
    its stripped content; directories, unreadable files and all other
    files leave nothing. *)
Theorem flatten_keeps_the_code_files (listing : list Flatten.entry) :
  List.NoDup
    (List.map (fun e => Flatten.str_path (Flatten.relative_path e))
       listing) ->
  Flatten._flatten_repository listing
  = flat_map Flatten.flattened_item listing.
Proof.
  intros Hnd. unfold Flatten._flatten_repository.
  rewrite fold_flatten_items; [reflexivity | exact Hnd | intros e _ []].
Qed.

Lemma flatten_keeps_the_code_files_witness :
  Flatten._flatten_repository Fixtures.small_repo
  = flat_map Flatten.flattened_item Fixtures.small_repo.
Proof.
  apply (flatten_keeps_the_code_files Fixtures.small_repo).
  repeat constructor; cbn; intuition discriminate.
Defined.

(** X12: the preprocessing stage loses no file and invents none: when no
    flattened path contains the marker or ends with the marker short
    of its last character, a path is a key of [corpus.json] exactly
    when some key of [chunks.json] is read back to it by
    [original_file]. *)
Theorem chunks_cover_the_flattened_files
    (split_text : string -> string -> list string)
    (listing : list Flatten.entry) (k : string) :
  Forall (fun k => clean_id k = true)
    (Py.keys (Flatten._flatten_repository listing)) ->
  In k (Py.keys (fst (Flatten.run split_text listing))) <->
  exists id,
    In id (Py.keys (snd (Flatten.run split_text listing))) /\
    original_file id = k.
Proof.
  apply run_covers.
Qed.

Lemma chunks_cover_the_flattened_files_witness :
  In "node_modules/lib/index.js"
    (Py.keys (fst (Flatten.run Fixtures.words Fixtures.small_repo))) <->
  exists id,
    In id (Py.keys (snd (Flatten.run Fixtures.words Fixtures.small_repo))) /\
    original_file id = "node_modules/lib/index.js".
Proof.
  apply (chunks_cover_the_flattened_files Fixtures.words Fixtures.small_repo).
  vm_compute. repeat constructor.
Defined.

(** ** Indexing the vectors *)

Section Upserts.

Import PineconeIndexer.

Variables repo_name version repo_url : string.
Variable md : metadata.

Lemma removelast_snoc {A} (l : list A) a : removelast (l ++ [a]) = l.
Proof. apply List.removelast_last. Qed.

Lemma Forall_removelast {A} (P : A -> Prop) l :
  Forall P l -> Forall P (removelast l).
Proof.
  induction 1 as [|a l Ha Hl IH]; [constructor|].
  destruct l as [|b l]; [constructor|].
  change (removelast (a :: b :: l)) with (a :: removelast (b :: l)).
  now constructor.
Qed.

(** What the loop keeps true: the closed calls are full, the waiting
    vectors are fewer than a call takes, and nothing is lost. *)
Lemma index_chunk_fold items : forall calls vectors,
  Forall (fun c => List.length c = batch_size) calls ->
  (List.length vectors < batch_size)%nat ->
  let st := fold_left (index_chunk repo_name version repo_url md) items
              (calls, vectors) in
  Forall (fun c => List.length c = batch_size) (fst st) /\
  (List.length (snd st) < batch_size)%nat /\
  List.concat (fst st) ++ snd st
  = List.concat calls ++ vectors
    ++ List.map (make_vector repo_name version repo_url md) items.
Proof.
  induction items as [|item items IH]; intros calls vectors Hfull Hlt;
    cbn [fold_left List.map].
  - cbn. now rewrite app_nil_r.
  - set (v := make_vector repo_name version repo_url md item).
    assert (E : index_chunk repo_name version repo_url md (calls, vectors)
                  item
                = if (batch_size <=? List.length (vectors ++ [v]))%nat
                  then (calls ++ [vectors ++ [v]], [])
                  else (calls, vectors ++ [v])) by reflexivity.
    rewrite E. clear E.
    destruct (Nat.leb_spec batch_size (List.length (vectors ++ [v])))
      as [Hge|Hlt'].
    + specialize (IH (calls ++ [vectors ++ [v]]) []).
      cbn zeta in IH. destruct IH as (H1 & H2 & H3).
      * apply List.Forall_app. split; [exact Hfull|].
        constructor; [|constructor].
        rewrite List.length_app in *. cbn [List.length] in *. lia.
      * unfold batch_size. cbn. lia.
      * split; [exact H1|]. split; [exact H2|]. rewrite H3.
        rewrite List.concat_app. cbn [List.concat app].
        rewrite app_nil_r, <- !app_assoc. reflexivity.
    + specialize (IH calls (vectors ++ [v]) Hfull Hlt').
      cbn zeta in IH. destruct IH as (H1 & H2 & H3).
      split; [exact H1|]. split; [exact H2|]. rewrite H3.
      rewrite <- !app_assoc. reflexivity.
Qed.

Lemma index_repository_calls embeddings :
  let calls := index_repository repo_name version repo_url md embeddings in
  List.concat calls
  = List.map (make_vector repo_name version repo_url md)
      (List.combine (chunk_ids md) embeddings) /\
  Forall (fun c => (1 <= List.length c <= batch_size)%nat) calls /\
  Forall (fun c => List.length c = batch_size) (removelast calls).
Proof.
  cbn zeta. unfold index_repository.
  pose proof (index_chunk_fold (List.combine (chunk_ids md) embeddings)
                [] [] (List.Forall_nil _)) as H.
  cbn zeta in H.
  destruct (fold_left _ _ _) as [calls vectors].
  destruct H as (H1 & H2 & H3); [unfold batch_size; cbn; lia|].
  cbn [fst snd List.concat app] in *.
  assert (Hcalls : Forall (fun c => (1 <= List.length c <= batch_size)%nat)
                     calls).
  { eapply List.Forall_impl; [|exact H1]. cbn beta. intros c ->.
    unfold batch_size. lia. }
  destruct vectors as [|v vectors].
  - rewrite app_nil_r in H3. split; [exact H3|]. split; [exact Hcalls|].
    now apply Forall_removelast.
  - split; [|split].
    + rewrite List.concat_app. cbn [List.concat]. now rewrite app_nil_r.
    + apply List.Forall_app. split; [exact Hcalls|].
      constructor; [|constructor]. cbn [List.length] in *. lia.
    + now rewrite removelast_snoc.
Qed.

Lemma map_fst_combine {A B} (l : list A) : forall (l' : list B),
  List.map fst (List.combine l l') = firstn (List.length l') l.
Proof.
  induction l as [|a l IH]; intros [|b l']; cbn; try reflexivity.
  now rewrite IH.
Qed.

Lemma vector_ids embeddings :
  List.map id
    (List.concat
       (index_repository repo_name version repo_url md embeddings))
  = List.map
      (fun k => (repo_name ++ ":" ++ version ++ ":" ++ k)%string)
      (firstn (List.length embeddings) (chunk_ids md)).
Proof.
  destruct (index_repository_calls embeddings) as [-> _].
  rewrite <- map_fst_combine, !List.map_map.
  apply List.map_ext. now intros [k e].
Qed.

Lemma vector_file_url embeddings vec :
  In vec
    (List.concat
       (index_repository repo_name version repo_url md embeddings)) ->
  exists k, In k (chunk_ids md) /\
    Py.get (vector_metadata vec) "original_file"
    = Some (repo_url ++ "/blob/" ++ version ++ "/"
            ++ Py.get_default (chunk_to_file md) k k)%string.
Proof.
  destruct (index_repository_calls embeddings) as [-> _].
  intros H. apply in_map_iff in H as ([k e] & <- & Hin).
  exists k. split; [|reflexivity].
  now apply List.in_combine_l in Hin.
Qed.

End Upserts.

Lemma nodup_firstn {A} n (l : list A) :
  List.NoDup l -> List.NoDup (firstn n l).
Proof.
  intros H. rewrite <- (List.firstn_skipn n l) in H.
  now apply List.NoDup_app_remove_r in H.
Qed.

(** X13: the vectors reach the index in full calls: the calls of
    [upsert], one after the other, carry the vectors of the chunks in
    their order, none is empty or longer than 100, and every call but
    the last carries exactly 100. *)
Theorem upserts_are_full_calls (repo_name version repo_url : string)
    (md : metadata) (embeddings : list embedding) :
  let calls :=
    PineconeIndexer.index_repository repo_name version repo_url md
      embeddings in
  List.concat calls
  = List.map (PineconeIndexer.make_vector repo_name version repo_url md)
      (List.combine (chunk_ids md) embeddings) /\
  Forall (fun c => (1 <= List.length c <= 100)%nat) calls /\
  Forall (fun c => List.length c = 100%nat) (removelast calls).
Proof.
  apply index_repository_calls.
Qed.

(** X14: the identifiers of the vectors are as distinct as the chunk
    identifiers: with distinct chunk identifiers no vector of a
    repository and version replaces another one in the index. *)
Theorem vector_ids_are_distinct (repo_name version repo_url : string)
    (md : metadata) (embeddings : list embedding) :
  List.NoDup (chunk_ids md) ->
  List.NoDup
    (List.map PineconeIndexer.id
       (List.concat
          (PineconeIndexer.index_repository repo_name version repo_url md
             embeddings))).
Proof.
  intros Hnd. rewrite vector_ids.
  apply Finite.Injective_map_NoDup; [|now apply nodup_firstn].
  intros k k' E. now apply append_cancel_l, append_cancel_l,
    append_cancel_l, append_cancel_l in E.
Qed.

Lemma vector_ids_are_distinct_witness :
  List.NoDup
    (List.map PineconeIndexer.id
       (List.concat
          (PineconeIndexer.index_repository "repo" "v1"
             "https://github.com/owner/repo" (snd Fixtures.three_chunks_saved)
             (fst Fixtures.three_chunks_saved)))).
Proof.
  apply (vector_ids_are_distinct "repo" "v1"
           "https://github.com/owner/repo" (snd Fixtures.three_chunks_saved)
           (fst Fixtures.three_chunks_saved)).
  repeat constructor; cbn; intuition discriminate.
Defined.

(** X15: the embedding stage and the indexer fit together: after a
    [run] that succeeds, an array with one row per saved vector gives
    one vector per chunk, in the order of the chunks, the vector of
    chunk [k] under the identifier [repo_name:version:k]. *)
Theorem every_chunk_is_indexed (PState : Type)
    (embeddings_create :
       PState -> string -> list string -> PState * option (list embedding))
    (self : service) (w : world PState) (chunks : Py.dict (Py.dict string))
    (embs : list embedding) (md : metadata) (rows : list embedding)
    (repo_name version repo_url : string) :
  snd (run embeddings_create self w chunks) = Some (embs, md) ->
  List.length rows = List.length embs ->
  List.map PineconeIndexer.id
    (List.concat
       (PineconeIndexer.index_repository repo_name version repo_url md rows))
  = List.map (fun k => (repo_name ++ ":" ++ version ++ ":" ++ k)%string)
      (Py.keys chunks).
Proof.
  intros Hrun Hrows. apply run_saved in Hrun as (Hlen & Hids & _).
  rewrite vector_ids, Hids, Hrows, Hlen. f_equal.
  unfold Py.keys. rewrite <- (List.length_map fst chunks).
  apply List.firstn_all.
Qed.

Lemma every_chunk_is_indexed_witness :
  List.map PineconeIndexer.id
    (List.concat
       (PineconeIndexer.index_repository "repo" "v1"
          "https://github.com/owner/repo" (snd Fixtures.three_chunks_saved)
          (fst Fixtures.three_chunks_saved)))
  = List.map (fun k => ("repo" ++ ":" ++ "v1" ++ ":" ++ k)%string)
      (Py.keys Instances.three_chunks).
Proof.
  apply (every_chunk_is_indexed nat Fixtures.steady_create
           (Instances.small_service (Some Instances.char_tokenizer))
           Instances.fresh_world Instances.three_chunks
           (fst Fixtures.three_chunks_saved) (snd Fixtures.three_chunks_saved)
           (fst Fixtures.three_chunks_saved)); reflexivity.
Defined.

(** X16: the three stages fit together: for a corpus none of whose
    identifiers contains the marker or ends with the marker short of
    its last character, every vector sent to the index after chunking
    and a [run] that succeeds carries as its file the address
    [repo_url/blob/version/d] of a document [d] of the corpus. *)
Theorem vectors_link_to_corpus_files
    (split_text : string -> string -> list string)
    (corpus : Py.dict CodePreprocessor.doc) (PState : Type)
    (embeddings_create :
       PState -> string -> list string -> PState * option (list embedding))
    (self : service) (w : world PState)
    (embs : list embedding) (md : metadata) (rows : list embedding)
    (repo_name version repo_url : string) :
  Forall (fun e => clean_id (fst e) = true) corpus ->
  snd (run embeddings_create self w
         (CodePreprocessor._chunk_corpus split_text corpus))
  = Some (embs, md) ->
  Forall
    (fun vec => exists d, In d (Py.keys corpus) /\
       Py.get (PineconeIndexer.vector_metadata vec) "original_file"
       = Some (repo_url ++ "/blob/" ++ version ++ "/" ++ d)%string)
    (List.concat
       (PineconeIndexer.index_repository repo_name version repo_url md rows)).
Proof.
  intros Hclean Hrun. apply run_saved in Hrun as (_ & Hids & Hfile).
  apply List.Forall_forall. intros vec Hvec.
  apply vector_file_url in Hvec as (k & Hk & ->). rewrite Hids in Hk.
  exists (original_file k). split.
  - now apply (chunk_corpus_owner split_text).
  - unfold Py.get_default. now rewrite (Hfile k Hk).
Qed.

Lemma vectors_link_to_corpus_files_witness :
  Forall
    (fun vec => exists d, In d (Py.keys Fixtures.two_file_corpus) /\
       Py.get (PineconeIndexer.vector_metadata vec) "original_file"
       = Some ("https://github.com/owner/repo" ++ "/blob/" ++ "v1" ++ "/"
               ++ d)%string)
    (List.concat
       (PineconeIndexer.index_repository "repo" "v1"
          "https://github.com/owner/repo" (snd Fixtures.two_files_saved)
          (fst Fixtures.two_files_saved))).
Proof.
  apply (vectors_link_to_corpus_files Fixtures.words Fixtures.two_file_corpus nat
           Fixtures.steady_create
           (Instances.small_service (Some Instances.char_tokenizer))
           Instances.fresh_world
           (fst Fixtures.two_files_saved) (snd Fixtures.two_files_saved)).
  - repeat constructor.
  - reflexivity.
Defined.

(** ** The pipeline *)

Section RepoUrl.

Import Pipeline.

Local Arguments String.append !s1 s2 : simpl nomatch.

Lemma prefix_char a c s :
  String.prefix (String a "") (String c s) = Ascii.eqb a c.
Proof.
  cbn [String.prefix]. destruct (ascii_dec a c) as [->|Hne].
  - now rewrite prefix_empty, Ascii.eqb_refl.
  - symmetry. now apply Ascii.eqb_neq.
Qed.

Lemma split_from_not_nil sep s : forall skip cur,
  Py.split_from sep skip cur s <> [].
Proof.
  induction s as [|c s IH]; intros skip cur; cbn [Py.split_from];
    [discriminate|].
  destruct skip; [|apply IH].
  destruct (String.prefix sep (String c s)); [discriminate | apply IH].
Qed.

Lemma split_from_no_slash s : forall cur,
  Py.contains "/" s = false ->
  Py.split_from "/" 0 cur s = [(cur ++ s)%string].
Proof.
  induction s as [|c s IH]; intros cur H; cbn [Py.split_from].
  - now rewrite append_empty_r.
  - cbn [Py.contains] in H. apply orb_false_iff in H as [H1 H2].
    rewrite H1, (IH _ H2), append_assoc. reflexivity.
Qed.

Lemma last_cons {A} (a : A) l d : l <> [] -> List.last (a :: l) d = List.last l d.
Proof. destruct l; [congruence | reflexivity]. Qed.

Lemma last_split_from u name : forall cur,
  Py.contains "/" name = false ->
  List.last (Py.split_from "/" 0 cur (u ++ "/" ++ name)) "" = name.
Proof.
  induction u as [|c u IH]; intros cur H.
  - cbn [String.append Py.split_from]. rewrite prefix_char, Ascii.eqb_refl.
    cbn [String.length Nat.sub]. now rewrite (split_from_no_slash _ _ H).
  - cbn [String.append Py.split_from].
    destruct (String.prefix "/" _).
    + cbn [String.length Nat.sub].
      rewrite last_cons by apply split_from_not_nil. now apply IH.
    + now apply IH.
Qed.

Lemma rstrip_slash_snoc s : rstrip_slash (s ++ "/") = rstrip_slash s.
Proof.
  induction s as [|c s IH]; [reflexivity|].
  cbn [String.append rstrip_slash]. now rewrite IH.
Qed.

End RepoUrl.

Section PipelineFacts.

Import Pipeline.

Variable fetch_archive : string -> option (list path).
Variable preprocessor_run : path -> path -> gset path -> gset path * outcome.
Variable embedding_run : path -> path -> gset path -> gset path * outcome.
Variable index_repository :
  path -> string -> string -> string -> gset path -> gset path * outcome.
Variable data_dir : path.

Lemma with_parents_prefix p q : In p (with_parents (p ++ q)).
Proof.
  induction p as [|c p IH]; cbn [app with_parents].
  - destruct q; now left.
  - right. apply in_map, IH.
Qed.

Lemma raw_dir_below repo_name tag :
  raw_dir data_dir repo_name tag
  = repo_dir data_dir repo_name tag ++ ["stage=raw"].
Proof. reflexivity. Qed.

(** A failed download leaves the directory of the tag behind. *)
Lemma repo_dir_survives tree repo_name tag :
  repo_dir data_dir repo_name tag
  ∈ rmtree (mkdir_parents tree (raw_dir data_dir repo_name tag))
      (raw_dir data_dir repo_name tag).
Proof.
  unfold rmtree. apply elem_of_filter. split.
  - rewrite raw_dir_below. intros Hp. apply prefix_length in Hp.
    rewrite length_app in Hp. cbn in Hp. lia.
  - unfold mkdir_parents. apply elem_of_union_r, elem_of_list_to_set.
    apply list_elem_of_In. rewrite raw_dir_below. apply with_parents_prefix.
Qed.

Lemma run_stages_started repo_url repo_name tag st :
  exists later,
    started (fst (run_stages preprocessor_run embedding_run index_repository
                    data_dir repo_url repo_name tag st))
    = started st ++ (tag, Preprocess) :: later.
Proof.
  unfold run_stages.
  destruct (preprocessor_run _ _ _) as [tree1 r1].
  destruct r1; try (exists []; reflexivity).
  destruct (embedding_run _ _ _) as [tree2 r2].
  destruct r2; try (exists [(tag, Embed)]; cbn; now rewrite <- app_assoc).
  destruct (index_repository _ _ _ _ _) as [tree3 r3].
  exists [(tag, Embed); (tag, Index)].
  destruct r3; cbn; now rewrite <- !app_assoc.
Qed.

Lemma process_tags_started repo_url repo_name tags : forall st,
  exists later,
    started (fst (process_tags fetch_archive preprocessor_run embedding_run
                    index_repository data_dir repo_url repo_name tags st))
    = started st ++ later.
Proof.
  induction tags as [|tag tags IH]; intros st; cbn [process_tags].
  - exists []. cbn. now rewrite app_nil_r.
  - assert (H1 : exists st1 ok l1,
               (if decide (repo_dir data_dir repo_name tag ∈ fs st)
                then (st, true)
                else
                  let '(tree, ok) :=
                    download_repo fetch_archive (fs st) repo_url
                      (raw_dir data_dir repo_name tag)
                      (if String.eqb tag "latest" then None else Some tag) in
                  ({| fs := tree; started := started st ++ [(tag, Fetch)] |},
                   ok)) = (st1, ok) /\
               started st1 = started st ++ l1).
    { destruct (decide _).
      - exists st, true, []. now rewrite app_nil_r.
      - destruct (download_repo _ _ _ _ _) as [tree ok].
        now exists {| fs := tree; started := started st ++ [(tag, Fetch)] |},
                   ok, [(tag, Fetch)]. }
    destruct H1 as (st1 & ok & l1 & -> & Hst1).
    destruct ok; [|exists l1; exact Hst1].
    destruct (run_stages_started repo_url repo_name tag st1) as [l2 Hl2].
    destruct (run_stages _ _ _ _ _ _ _ st1) as [st2 continue].
    cbn [fst] in Hl2. destruct continue.
    + destruct (IH st2) as [l3 Hl3]. rewrite Hl3, Hl2, Hst1.
      exists (l1 ++ (tag, Preprocess) :: l2 ++ l3).
      now rewrite <- !app_assoc.
    + cbn [fst]. rewrite Hl2, Hst1. exists (l1 ++ (tag, Preprocess) :: l2).
      now rewrite <- !app_assoc.
Qed.

(** The loop on a tag whose directory is there: no download. *)
Lemma process_tags_present repo_url repo_name tag rest st :
  repo_dir data_dir repo_name tag ∈ fs st ->
  exists later,
    started (fst (process_tags fetch_archive preprocessor_run embedding_run
                    index_repository data_dir repo_url repo_name
                    (tag :: rest) st))
    = started st ++ (tag, Preprocess) :: later.
Proof.
  intros Hin. cbn [process_tags].
  destruct (decide _) as [_|Hn]; [|contradiction].
  destruct (run_stages_started repo_url repo_name tag st) as [l2 Hl2].
  destruct (run_stages _ _ _ _ _ _ _ st) as [st2 continue].
  cbn [fst] in Hl2. destruct continue.
  - destruct (process_tags_started repo_url repo_name rest st2) as [l3 Hl3].
    rewrite Hl3, Hl2. exists (l2 ++ l3). now rewrite <- !app_assoc.
  - cbn [fst]. now exists l2.
Qed.

Hypothesis fetch_answers : forall url, fetch_archive url <> None.
Hypothesis preprocessor_done :
  forall input output tree, snd (preprocessor_run input output tree) = Done.
Hypothesis embedding_done :
  forall input output tree, snd (embedding_run input output tree) = Done.
Hypothesis index_returns :
  forall input repo_name tag repo_url tree,
    snd (index_repository input repo_name tag repo_url tree) <> Raised.

Lemma run_stages_done repo_url repo_name tag st :
  exists st',
    run_stages preprocessor_run embedding_run index_repository data_dir
      repo_url repo_name tag st = (st', true) /\
    started st' = started st ++ later_stages tag.
Proof.
  unfold run_stages.
  pose proof (preprocessor_done (raw_dir data_dir repo_name tag)
                (preprocessed_dir data_dir repo_name tag) (fs st)) as H1.
  destruct (preprocessor_run _ _ _) as [tree1 r1]. cbn [snd] in H1. subst r1.
  pose proof (embedding_done (preprocessed_dir data_dir repo_name tag)
                (embeddings_dir data_dir repo_name tag) tree1) as H2.
  destruct (embedding_run _ _ _) as [tree2 r2]. cbn [snd] in H2. subst r2.
  pose proof (index_returns (embeddings_dir data_dir repo_name tag)
                repo_name tag repo_url tree2) as H3.
  destruct (index_repository _ _ _ _ _) as [tree3 r3]. cbn [snd] in H3.
  destruct r3; [| |contradiction];
    (eexists; split; [reflexivity|]; cbn [started];
     now rewrite <- !app_assoc).
Qed.

Lemma process_tags_done repo_url repo_name tags : forall st,
  exists st',
    process_tags fetch_archive preprocessor_run embedding_run
      index_repository data_dir repo_url repo_name tags st = (st', true) /\
    List.filter is_later_stage (started st')
    = List.filter is_later_stage (started st) ++ flat_map later_stages tags.
Proof.
  induction tags as [|tag tags IH]; intros st; cbn [process_tags flat_map].
  - exists st. now rewrite app_nil_r.
  - assert (H1 : exists st1,
               (if decide (repo_dir data_dir repo_name tag ∈ fs st)
                then (st, true)
                else
                  let '(tree, ok) :=
                    download_repo fetch_archive (fs st) repo_url
                      (raw_dir data_dir repo_name tag)
                      (if String.eqb tag "latest" then None else Some tag) in
                  ({| fs := tree; started := started st ++ [(tag, Fetch)] |},
                   ok)) = (st1, true) /\
               List.filter is_later_stage (started st1)
               = List.filter is_later_stage (started st)).
    { destruct (decide _).
      - now exists st.
      - unfold download_repo.
        destruct (fetch_archive _) as [files|] eqn:E;
          [|now apply fetch_answers in E].
        eexists. split; [reflexivity|]. cbn [started].
        rewrite List.filter_app. cbn. now rewrite app_nil_r. }
    destruct H1 as (st1 & -> & Hst1).
    destruct (run_stages_done repo_url repo_name tag st1) as (st2 & -> & Hst2).
    destruct (IH st2) as (st3 & -> & Hst3).
    exists st3. split; [reflexivity|].
    rewrite Hst3, Hst2, List.filter_app, Hst1, <- app_assoc. reflexivity.
Qed.

End PipelineFacts.

(** X17: the repository name is what follows the last slash of the
    address. *)
Theorem repo_name_is_last_segment (u name : string) :
  Py.contains "/" name = false ->
  Pipeline.extract_repo_name (u ++ "/" ++ name) = name.
Proof.
  intros H. unfold Pipeline.extract_repo_name, Py.split.
  now apply last_split_from.
Qed.

Lemma repo_name_is_last_segment_witness :
  Pipeline.extract_repo_name ("https://github.com/owner" ++ "/" ++ "repo")
  = "repo".
Proof.
  apply (repo_name_is_last_segment "https://github.com/owner" "repo").
  reflexivity.
Defined.

(** X18: a slash at the end of the address does not change the archive
    that is fetched, but it empties the repository name, and with it
    the data of every repository given that way shares one directory
    per tag. *)
Theorem trailing_slash_empties_repo_name (u : string) (tag : option string)
    (data_dir : Pipeline.path) (t : string) :
  Pipeline.zip_url (u ++ "/") tag = Pipeline.zip_url u tag /\
  Pipeline.extract_repo_name (u ++ "/") = "" /\
  Pipeline.repo_dir data_dir (Pipeline.extract_repo_name (u ++ "/")) t
  = Pipeline.joinpath data_dir t.
Proof.
  assert (E : Pipeline.extract_repo_name (u ++ "/") = "").
  { unfold Pipeline.extract_repo_name, Py.split.
    now apply (last_split_from u ""). }
  split; [|split; [exact E|]].
  - unfold Pipeline.zip_url. now rewrite rstrip_slash_snoc.
  - rewrite E. unfold Pipeline.repo_dir. f_equal.
    unfold Pipeline.joinpath. cbn. apply app_nil_r.
Qed.

(** X19: a failed download is not tried again: the failure removes the
    directory of the raw stage but leaves the directory of the tag
    behind, so the next run of the pipeline finds the tag present,
    skips its download and starts preprocessing a directory that is
    not there. *)
Theorem failed_fetch_is_not_retried
    (fetch_archive : string -> option (list Pipeline.path))
    (preprocessor_run embedding_run :
       Pipeline.path -> Pipeline.path -> gset Pipeline.path ->
       gset Pipeline.path * Pipeline.outcome)
    (index_repository :
       Pipeline.path -> string -> string -> string -> gset Pipeline.path ->
       gset Pipeline.path * Pipeline.outcome)
    (data_dir : Pipeline.path) (repo_url : string)
    (tag : string) (rest : list string) (st : Pipeline.state) :
  Pipeline.repo_dir data_dir (Pipeline.extract_repo_name repo_url) tag
    ∉ Pipeline.fs st ->
  fetch_archive
    (Pipeline.zip_url repo_url
       (if String.eqb tag "latest" then None else Some tag))
  = None ->
  let st1 :=
    Pipeline.run_pipeline fetch_archive preprocessor_run embedding_run
      index_repository data_dir repo_url (tag :: rest) st in
  Pipeline.started st1 = Pipeline.started st ++ [(tag, Pipeline.Fetch)] /\
  (Pipeline.raw_dir data_dir (Pipeline.extract_repo_name repo_url) tag
     ∉ Pipeline.fs st1) /\
  exists later,
    Pipeline.started
      (Pipeline.run_pipeline fetch_archive preprocessor_run embedding_run
         index_repository data_dir repo_url (tag :: rest) st1)
    = Pipeline.started st1 ++ (tag, Pipeline.Preprocess) :: later.
Proof.
  intros Hdir Hfetch st1.
  assert (E : st1
              = {| Pipeline.fs :=
                     Pipeline.rmtree
                       (Pipeline.mkdir_parents (Pipeline.fs st)
                          (Pipeline.raw_dir data_dir
                             (Pipeline.extract_repo_name repo_url) tag))
                       (Pipeline.raw_dir data_dir
                          (Pipeline.extract_repo_name repo_url) tag);
                   Pipeline.started :=
                     Pipeline.started st ++ [(tag, Pipeline.Fetch)] |}).
  { unfold st1, Pipeline.run_pipeline. cbn [Pipeline.process_tags].
    destruct (decide _) as [Hin|_]; [contradiction|].
    now rewrite (download_repo_failure _ _ _ _ _ Hfetch). }
  clearbody st1. subst st1. cbn [Pipeline.started Pipeline.fs].
  split; [reflexivity|]. split; [now apply rmtree_removes|].
  unfold Pipeline.run_pipeline.
  apply process_tags_present. cbn [Pipeline.fs]. apply repo_dir_survives.
Qed.

Lemma failed_fetch_is_not_retried_witness :
  let st1 := Instances.pipeline_run "v1" ["v1"; "v2"] in
  Pipeline.started st1
  = Pipeline.started Instances.empty_state ++ [("v1", Pipeline.Fetch)] /\
  (Pipeline.raw_dir ["data"]
     (Pipeline.extract_repo_name "https://github.com/owner/repo") "v1"
     ∉ Pipeline.fs st1) /\
  exists later,
    Pipeline.started
      (Pipeline.run_pipeline (Instances.failing_fetch "v1")
         Instances.stage_ok Instances.stage_ok Instances.index_ok ["data"]
         "https://github.com/owner/repo" ["v1"; "v2"] st1)
    = Pipeline.started st1 ++ ("v1", Pipeline.Preprocess) :: later.
Proof.
  apply (failed_fetch_is_not_retried (Instances.failing_fetch "v1")
           Instances.stage_ok Instances.stage_ok Instances.index_ok
           ["data"] "https://github.com/owner/repo" "v1" ["v2"]
           Instances.empty_state).
  - cbn. apply not_elem_of_empty.
  - reflexivity.
Defined.

(** X20: when every archive can be fetched, the first two stages
    return [True] and the indexer does not raise, the loop runs
    through all its tags, and the stages after the download are
    started for every tag, tag after tag in the order given and for
    each tag in the order preprocess, embed, index. *)
Theorem all_tags_are_processed
    (fetch_archive : string -> option (list Pipeline.path))
    (preprocessor_run embedding_run :
       Pipeline.path -> Pipeline.path -> gset Pipeline.path ->
       gset Pipeline.path * Pipeline.outcome)
    (index_repository :
       Pipeline.path -> string -> string -> string -> gset Pipeline.path ->
       gset Pipeline.path * Pipeline.outcome)
    (data_dir : Pipeline.path) (repo_url repo_name : string)
    (tags : list string) (st : Pipeline.state) :
  (forall url, fetch_archive url <> None) ->
  (forall input output tree,
     snd (preprocessor_run input output tree) = Pipeline.Done) ->
  (forall input output tree,
     snd (embedding_run input output tree) = Pipeline.Done) ->
  (forall input repo_name tag repo_url tree,
     snd (index_repository input repo_name tag repo_url tree)
     <> Pipeline.Raised) ->
  exists st',
    Pipeline.process_tags fetch_archive preprocessor_run embedding_run
      index_repository data_dir repo_url repo_name tags st = (st', true) /\
    List.filter is_later_stage (Pipeline.started st')
    = List.filter is_later_stage (Pipeline.started st)
      ++ flat_map later_stages tags.
Proof.
  intros H1 H2 H3 H4. now apply process_tags_done.
Qed.

Lemma all_tags_are_processed_witness :
  exists st',
    Pipeline.process_tags Fixtures.fetch_ok Instances.stage_ok Instances.stage_ok
      Instances.index_ok ["data"] "https://github.com/owner/repo" "repo"
      ["v1"; "v2"] Instances.empty_state = (st', true) /\
    List.filter is_later_stage (Pipeline.started st')
    = List.filter is_later_stage (Pipeline.started Instances.empty_state)
      ++ flat_map later_stages ["v1"; "v2"].
Proof.
  apply (all_tags_are_processed Fixtures.fetch_ok Instances.stage_ok
           Instances.stage_ok Instances.index_ok ["data"]
           "https://github.com/owner/repo" "repo" ["v1"; "v2"]
           Instances.empty_state); intros; (reflexivity || discriminate).
Defined.
